(** * SolverForge quickstart web UI: the solving-session controller

    A shallow embedding of the session logic of
    [static/webjars/solverforge/js/solverforge-webui.js]: the global
    session state, the solve / stop / poll handlers, the local edits of
    the loaded schedule, the KPI metrics and the score analysis sort.

    The browser is an event loop: a handler runs to completion and the
    answer of an AJAX request arrives later as an event of its own.  The
    model keeps the requests that were issued and are still unanswered in
    the state ([pending]) and runs a callback when an answer is
    delivered ([deliver]).

    Of the page the state holds what the handlers decide on or report
    with: the solve and stop buttons, the spinner, the KPI values, the
    weight sliders and the toasts.  Console output, the card panels, the
    modals and the source viewer of the Build tab are left out. *)

From Stdlib Require Import String Ascii List Bool Arith ZArith QArith Qabs Lia Lqa.
From Stdlib Require Import Permutation Sorted DecimalString DecimalNat.
From Stdlib Require Import Qround.
From Stdlib Require HexadecimalString.
Import ListNotations.
Open Scope string_scope.
Open Scope Z_scope.

(** ** JavaScript primitives used by the script *)

Module JS.

(** Strings are sequences of characters with the codes 0 to 255.  White
    space is the part of the set that [String.prototype.trim] and
    [parseInt] strip which has such a code: TAB, LF, VT, FF, CR, SP and the
    no-break space (160).  The other white space of the language (U+1680,
    U+2000 to U+200A, U+2028, U+2029, U+202F, U+205F, U+3000, U+FEFF) is
    outside of these strings. *)
Definition isWhiteSpace (c : ascii) : bool :=
  let n := nat_of_ascii c in
  ((9 <=? n) && (n <=? 13))%nat || (n =? 32)%nat || (n =? 160)%nat.

Definition isDigit (c : ascii) : bool :=
  let n := nat_of_ascii c in ((48 <=? n) && (n <=? 57))%nat.

Definition digitValue (c : ascii) : Z := Z.of_nat (nat_of_ascii c) - 48.

(** Value of a hexadecimal digit, if [c] is one. *)
Definition hexValue (c : ascii) : option Z :=
  let n := nat_of_ascii c in
  if ((48 <=? n) && (n <=? 57))%nat then Some (Z.of_nat n - 48)
  else if ((65 <=? n) && (n <=? 70))%nat then Some (Z.of_nat n - 55)
  else if ((97 <=? n) && (n <=? 102))%nat then Some (Z.of_nat n - 87)
  else None.

Fixpoint trimStart (s : string) : string :=
  match s with
  | String c r => if isWhiteSpace c then trimStart r else s
  | EmptyString => EmptyString
  end.

Fixpoint rev_string (s acc : string) : string :=
  match s with
  | EmptyString => acc
  | String c r => rev_string r (String c acc)
  end.

Definition trimEnd (s : string) : string :=
  rev_string (trimStart (rev_string s "")) "".

(** [s.trim()] *)
Definition trim (s : string) : string := trimEnd (trimStart s).

Definition lowerChar (c : ascii) : ascii :=
  let n := nat_of_ascii c in
  if ((65 <=? n) && (n <=? 90))%nat then ascii_of_nat (n + 32) else c.

(** [s.toLowerCase()] on the ASCII letters. *)
Fixpoint toLowerCase (s : string) : string :=
  match s with
  | EmptyString => EmptyString
  | String c r => String (lowerChar c) (toLowerCase r)
  end.

(** [s.split(sep)] for a one-character separator: the pieces between the
    separators, in order; a string without separator is its only piece. *)
Fixpoint split (sep : ascii) (s : string) : list string :=
  match s with
  | EmptyString => [EmptyString]
  | String c r =>
      if Ascii.eqb c sep then EmptyString :: split sep r
      else match split sep r with
           | p :: ps => String c p :: ps
           | [] => [String c EmptyString]
           end
  end.

(** Truthiness of a string: every string but the empty one. *)
Definition truthyString (s : string) : bool :=
  match s with EmptyString => false | _ => true end.

(** Truthiness of a value that is [null] or a string. *)
Definition truthy (v : option string) : bool :=
  match v with Some s => truthyString s | None => false end.

(** [arr.includes(x)] on an array of strings. *)
Definition includes (x : string) (l : list string) : bool :=
  existsb (String.eqb x) l.

(** The longest prefix of digits, and what follows it. *)
Fixpoint spanDigits (s : string) : string * string :=
  match s with
  | String c r =>
      if isDigit c then let (d, rest) := spanDigits r in (String c d, rest)
      else (EmptyString, s)
  | EmptyString => (EmptyString, EmptyString)
  end.

(** Value of a string of decimal digits read after the prefix value [acc]. *)
Fixpoint digitsValue (s : string) (acc : Z) : Z :=
  match s with
  | String c r => digitsValue r (10 * acc + digitValue c)
  | EmptyString => acc
  end.

(** Reads hexadecimal digits as far as they go: the value read so far and
    whether at least one digit was seen. *)
Fixpoint hexDigits (s : string) (acc : Z) (seen : bool) : option Z :=
  match s with
  | String c r =>
      match hexValue c with
      | Some v => hexDigits r (16 * acc + v) true
      | None => if seen then Some acc else None
      end
  | EmptyString => if seen then Some acc else None
  end.

(** [Number.MAX_SAFE_INTEGER], 2^53 - 1: the integers up to it in
    magnitude are numbers of the language, which a double holds unchanged
    and prints in plain decimal digits. *)
Definition MAX_SAFE_INTEGER : Z := 9007199254740991.

(** [parseInt(s)] without radix: leading white space is skipped, a sign is
    read, a [0x] / [0X] prefix selects base sixteen, then digits are read
    as far as they go.  [None] is NaN.  The value is the exact integer that
    the digits write, which is the result of the script up to
    [MAX_SAFE_INTEGER] in magnitude (beyond it the script gets the nearest
    double); properties that return the value are stated within this
    range.  The script itself only tests the result for being falsy (NaN
    or zero), and [-0] is zero. *)
Definition parseInt (s : string) : option Z :=
  let s1 := trimStart s in
  let '(neg, s2) :=
    match s1 with
    | String "-" r => (true, r)
    | String "+" r => (false, r)
    | _ => (false, s1)
    end in
  let sign (v : Z) := if neg : bool then - v else v in
  match s2 with
  | String "0" (String "x" r) | String "0" (String "X" r) =>
      option_map sign (hexDigits r 0 false)
  | _ =>
      let (d, _) := spanDigits s2 in
      match d with
      | EmptyString => None
      | _ => Some (sign (digitsValue d 0))
      end
  end.

(** [parseInt(s) || dflt] *)
Definition parseIntOr (s : string) (dflt : Z) : Z :=
  match parseInt s with
  | Some v => if v =? 0 then dflt else v
  | None => dflt
  end.

(** Decimal text of a natural number, as in a template literal. *)
Definition natToString (n : nat) : string :=
  NilEmpty.string_of_uint (Nat.to_uint n).

Definition intToString (z : Z) : string :=
  if z <? 0 then "-" ++ natToString (Z.to_nat (- z))
  else natToString (Z.to_nat z).

(** Digits of the fraction [r / den] (with [0 <= r < den]) until the
    remainder is zero, at most [fuel] of them. *)
Fixpoint fractionDigits (fuel : nat) (r den : Z) : string :=
  match fuel with
  | O => EmptyString
  | S f =>
      if r =? 0 then EmptyString
      else String (ascii_of_nat (Z.to_nat (48 + (10 * r) / den)))
                  (fractionDigits f ((10 * r) mod den) den)
  end.

(** Numbers read by [parseFloat] from a decimal literal are kept as exact
    rationals.  The text of a number is its decimal expansion, which is what
    a template literal prints for the integers up to [MAX_SAFE_INTEGER] in
    magnitude and for the short decimals that scores are made of (the
    script prints the nearest double, and exponent notation below 1e-6 and
    from 1e21 on); properties that return the text are stated for such
    integers. *)
Definition numberToString (q : Q) : string :=
  let q := Qred q in
  let n := Qnum q in
  let d := Zpos (Qden q) in
  let a := Z.abs n in
  let ip := a / d in
  let fr := fractionDigits (S (Z.to_nat (Z.log2 d))) (a mod d) d in
  let sign := if n <? 0 then "-" else "" in
  let point := if truthyString fr then "." ++ fr else "" in
  sign ++ natToString (Z.to_nat ip) ++ point.

Definition Qltb (x y : Q) : bool := negb (Qle_bool y x).

(** [arr.sort(cmp)]: the sort is stable, and an element moves behind
    another one only where the comparator answers a positive number.
    For a comparator that is a consistent ordering every stable sort gives
    the same array; this is insertion from the right. *)
Section Sort.
Context {A : Type} (cmp : A -> A -> Q).

Fixpoint insert (x : A) (l : list A) : list A :=
  match l with
  | [] => [x]
  | y :: r => if Qltb 0 (cmp x y) then y :: insert x r else x :: l
  end.

Fixpoint sort (l : list A) : list A :=
  match l with
  | [] => []
  | x :: r => insert x (sort r)
  end.

End Sort.

End JS.

(** ** Data model *)

(** A resource object of the schedule.  [skills] may be missing: the
    script tests [resource.skills] before it reads the list. *)
Record Resource := {
  name : string;
  capacity : Z;
  skills : option (list string)
}.

(** A task object.  [requiredSkill] and [resource] are [null] or a string;
    the empty skill means no requirement. *)
Record Task := {
  id : string;
  taskName : string;
  duration : Z;
  requiredSkill : option string;
  resource : option string
}.

(** The value of a [score] field: [null] or [undefined], a score string
    such as ["0hard/-50soft"], or any other truthy value (an object). *)
Inductive ScoreValue :=
| ScoreNull
| ScoreUndefined
| ScoreString (s : string)
| ScoreObject.

(** The schedule object.  The script tests [schedule.tasks] and
    [schedule.resources] before it reads them: either array may be
    missing.  [solverStatus] is [null] or a string. *)
Record Schedule := {
  resources : option (list Resource);
  tasks : option (list Task);
  score : ScoreValue;
  solverStatus : option string
}.

(** The object returned by [getConstraintWeights]. *)
Record ConstraintWeights := {
  required_skill : Z;
  resource_capacity : Z;
  minimize_duration : Z;
  balance_load : Z
}.

(** [DEFAULT_WEIGHTS] *)
Definition DEFAULT_WEIGHTS : ConstraintWeights :=
  {| required_skill := 100;
     resource_capacity := 100;
     minimize_duration := 50;
     balance_load := 50 |}.

(** *** Requests and their answers *)

Inductive Method := GET | POST | PUT | DELETE.

(** The body of a request: nothing, or the loaded schedule, with the
    constraint weights in the request of [solve]. *)
Inductive Body :=
| NoBody
| ScheduleBody (s : Schedule)
| SolveBody (s : Schedule) (w : ConstraintWeights).

Record Request := {
  method : Method;
  url : string;
  body : Body
}.

(** The callback pair that waits for the answer of a request. *)
Inductive Callback :=
| OnSchedule      (* refreshSchedule: $.getJSON(path, ...) *)
| OnSolveStarted  (* solve: $.post("/schedules", ...) *)
| OnStopped.      (* stopSolving: $.delete(...) *)

(** The answer of the server: the parsed body for the success callback,
    or the [thrownError] text for the [fail] callback. *)
Inductive Answer :=
| ScheduleAnswer (s : option Schedule)
| TextAnswer (data : string)
| EmptyAnswer
| FailAnswer (thrownError : string).

(** A toast of [showNotification(message, type)]. *)
Record Notification := {
  message : string;
  type : string
}.

(** *** Session state

    The four globals of section 1 of the script, the part of the page the
    handlers read and write, and the browser's side of the session: the
    running interval timers, the requests that wait for an answer, the
    toasts shown and all requests sent so far. *)
Record State := {
  autoRefreshIntervalId : option nat;
  demoDataId : option string;
  scheduleId : option string;
  loadedSchedule : option Schedule;
  (* page *)
  solveButtonShown : bool;
  stopSolvingButtonShown : bool;
  solvingSpinnerActive : bool;
  kpiTotalTasks : string;
  kpiAssigned : string;
  kpiViolations : string;
  kpiScore : string;
  weightRequiredSkill : string;
  weightResourceCapacity : string;
  weightMinimizeDuration : string;
  weightBalanceLoad : string;
  (* browser *)
  intervals : list nat;
  nextIntervalId : nat;
  pending : list (Request * Callback);
  sent : list Request;
  notifications : list Notification
}.

(** Assignments to the components of the state. *)
Definition set_autoRefreshIntervalId (v : option nat) (st : State) : State :=
  {| autoRefreshIntervalId := v; demoDataId := demoDataId st;
     scheduleId := scheduleId st; loadedSchedule := loadedSchedule st;
     solveButtonShown := solveButtonShown st;
     stopSolvingButtonShown := stopSolvingButtonShown st;
     solvingSpinnerActive := solvingSpinnerActive st;
     kpiTotalTasks := kpiTotalTasks st; kpiAssigned := kpiAssigned st;
     kpiViolations := kpiViolations st; kpiScore := kpiScore st;
     weightRequiredSkill := weightRequiredSkill st;
     weightResourceCapacity := weightResourceCapacity st;
     weightMinimizeDuration := weightMinimizeDuration st;
     weightBalanceLoad := weightBalanceLoad st; intervals := intervals st;
     nextIntervalId := nextIntervalId st; pending := pending st;
     sent := sent st; notifications := notifications st |}.

Definition set_demoDataId (v : option string) (st : State) : State :=
  {| autoRefreshIntervalId := autoRefreshIntervalId st; demoDataId := v;
     scheduleId := scheduleId st; loadedSchedule := loadedSchedule st;
     solveButtonShown := solveButtonShown st;
     stopSolvingButtonShown := stopSolvingButtonShown st;
     solvingSpinnerActive := solvingSpinnerActive st;
     kpiTotalTasks := kpiTotalTasks st; kpiAssigned := kpiAssigned st;
     kpiViolations := kpiViolations st; kpiScore := kpiScore st;
     weightRequiredSkill := weightRequiredSkill st;
     weightResourceCapacity := weightResourceCapacity st;
     weightMinimizeDuration := weightMinimizeDuration st;
     weightBalanceLoad := weightBalanceLoad st; intervals := intervals st;
     nextIntervalId := nextIntervalId st; pending := pending st;
     sent := sent st; notifications := notifications st |}.

Definition set_scheduleId (v : option string) (st : State) : State :=
  {| autoRefreshIntervalId := autoRefreshIntervalId st;
     demoDataId := demoDataId st; scheduleId := v;
     loadedSchedule := loadedSchedule st;
     solveButtonShown := solveButtonShown st;
     stopSolvingButtonShown := stopSolvingButtonShown st;
     solvingSpinnerActive := solvingSpinnerActive st;
     kpiTotalTasks := kpiTotalTasks st; kpiAssigned := kpiAssigned st;
     kpiViolations := kpiViolations st; kpiScore := kpiScore st;
     weightRequiredSkill := weightRequiredSkill st;
     weightResourceCapacity := weightResourceCapacity st;
     weightMinimizeDuration := weightMinimizeDuration st;
     weightBalanceLoad := weightBalanceLoad st; intervals := intervals st;
     nextIntervalId := nextIntervalId st; pending := pending st;
     sent := sent st; notifications := notifications st |}.

Definition set_loadedSchedule (v : option Schedule) (st : State) : State :=
  {| autoRefreshIntervalId := autoRefreshIntervalId st;
     demoDataId := demoDataId st; scheduleId := scheduleId st;
     loadedSchedule := v; solveButtonShown := solveButtonShown st;
     stopSolvingButtonShown := stopSolvingButtonShown st;
     solvingSpinnerActive := solvingSpinnerActive st;
     kpiTotalTasks := kpiTotalTasks st; kpiAssigned := kpiAssigned st;
     kpiViolations := kpiViolations st; kpiScore := kpiScore st;
     weightRequiredSkill := weightRequiredSkill st;
     weightResourceCapacity := weightResourceCapacity st;
     weightMinimizeDuration := weightMinimizeDuration st;
     weightBalanceLoad := weightBalanceLoad st; intervals := intervals st;
     nextIntervalId := nextIntervalId st; pending := pending st;
     sent := sent st; notifications := notifications st |}.

Definition set_buttons (solveB : bool) (stopB : bool) (spin : bool)
  (st : State) : State :=
  {| autoRefreshIntervalId := autoRefreshIntervalId st;
     demoDataId := demoDataId st; scheduleId := scheduleId st;
     loadedSchedule := loadedSchedule st; solveButtonShown := solveB;
     stopSolvingButtonShown := stopB; solvingSpinnerActive := spin;
     kpiTotalTasks := kpiTotalTasks st; kpiAssigned := kpiAssigned st;
     kpiViolations := kpiViolations st; kpiScore := kpiScore st;
     weightRequiredSkill := weightRequiredSkill st;
     weightResourceCapacity := weightResourceCapacity st;
     weightMinimizeDuration := weightMinimizeDuration st;
     weightBalanceLoad := weightBalanceLoad st; intervals := intervals st;
     nextIntervalId := nextIntervalId st; pending := pending st;
     sent := sent st; notifications := notifications st |}.

Definition set_kpis (total : string) (assigned : string) (viol : string)
  (sc : string) (st : State) : State :=
  {| autoRefreshIntervalId := autoRefreshIntervalId st;
     demoDataId := demoDataId st; scheduleId := scheduleId st;
     loadedSchedule := loadedSchedule st;
     solveButtonShown := solveButtonShown st;
     stopSolvingButtonShown := stopSolvingButtonShown st;
     solvingSpinnerActive := solvingSpinnerActive st;
     kpiTotalTasks := total; kpiAssigned := assigned; kpiViolations := viol;
     kpiScore := sc; weightRequiredSkill := weightRequiredSkill st;
     weightResourceCapacity := weightResourceCapacity st;
     weightMinimizeDuration := weightMinimizeDuration st;
     weightBalanceLoad := weightBalanceLoad st; intervals := intervals st;
     nextIntervalId := nextIntervalId st; pending := pending st;
     sent := sent st; notifications := notifications st |}.

Definition set_intervals (running : list nat) (next : nat) (st : State) :
  State :=
  {| autoRefreshIntervalId := autoRefreshIntervalId st;
     demoDataId := demoDataId st; scheduleId := scheduleId st;
     loadedSchedule := loadedSchedule st;
     solveButtonShown := solveButtonShown st;
     stopSolvingButtonShown := stopSolvingButtonShown st;
     solvingSpinnerActive := solvingSpinnerActive st;
     kpiTotalTasks := kpiTotalTasks st; kpiAssigned := kpiAssigned st;
     kpiViolations := kpiViolations st; kpiScore := kpiScore st;
     weightRequiredSkill := weightRequiredSkill st;
     weightResourceCapacity := weightResourceCapacity st;
     weightMinimizeDuration := weightMinimizeDuration st;
     weightBalanceLoad := weightBalanceLoad st; intervals := running;
     nextIntervalId := next; pending := pending st; sent := sent st;
     notifications := notifications st |}.

Definition set_requests (waiting : list (Request * Callback))
  (all : list Request) (st : State) : State :=
  {| autoRefreshIntervalId := autoRefreshIntervalId st;
     demoDataId := demoDataId st; scheduleId := scheduleId st;
     loadedSchedule := loadedSchedule st;
     solveButtonShown := solveButtonShown st;
     stopSolvingButtonShown := stopSolvingButtonShown st;
     solvingSpinnerActive := solvingSpinnerActive st;
     kpiTotalTasks := kpiTotalTasks st; kpiAssigned := kpiAssigned st;
     kpiViolations := kpiViolations st; kpiScore := kpiScore st;
     weightRequiredSkill := weightRequiredSkill st;
     weightResourceCapacity := weightResourceCapacity st;
     weightMinimizeDuration := weightMinimizeDuration st;
     weightBalanceLoad := weightBalanceLoad st; intervals := intervals st;
     nextIntervalId := nextIntervalId st; pending := waiting; sent := all;
     notifications := notifications st |}.

Definition set_notifications (v : list Notification) (st : State) : State :=
  {| autoRefreshIntervalId := autoRefreshIntervalId st;
     demoDataId := demoDataId st; scheduleId := scheduleId st;
     loadedSchedule := loadedSchedule st;
     solveButtonShown := solveButtonShown st;
     stopSolvingButtonShown := stopSolvingButtonShown st;
     solvingSpinnerActive := solvingSpinnerActive st;
     kpiTotalTasks := kpiTotalTasks st; kpiAssigned := kpiAssigned st;
     kpiViolations := kpiViolations st; kpiScore := kpiScore st;
     weightRequiredSkill := weightRequiredSkill st;
     weightResourceCapacity := weightResourceCapacity st;
     weightMinimizeDuration := weightMinimizeDuration st;
     weightBalanceLoad := weightBalanceLoad st; intervals := intervals st;
     nextIntervalId := nextIntervalId st; pending := pending st;
     sent := sent st; notifications := v |}.

(** ** Scores *)

(** The object built by [getScoreComponents]. *)
Record ScoreComponents := {
  hard : Q;
  medium : Q;
  soft : Q
}.

Inductive Level := Hard | Medium | Soft.

Definition setComponent (k : Level) (v : Q) (c : ScoreComponents) :
  ScoreComponents :=
  match k with
  | Hard => {| hard := v; medium := medium c; soft := soft c |}
  | Medium => {| hard := hard c; medium := v; soft := soft c |}
  | Soft => {| hard := hard c; medium := medium c; soft := v |}
  end.

(** The alternative [(hard|medium|soft)] at the head of [s], with the
    number of characters it takes. *)
Definition levelAt (s : string) : option (Level * nat) :=
  if String.prefix "hard" s then Some (Hard, 4%nat)
  else if String.prefix "medium" s then Some (Medium, 6%nat)
  else if String.prefix "soft" s then Some (Soft, 4%nat)
  else None.

(** One attempt of [/(-?\d*\.?\d+)(hard|medium|soft)/] at the head of [s]:
    the text of the first group, the level and the length of the match.

    The level begins with a letter, so the final [\d+] always ends where
    the digits end.  After the optional sign and the longest run of digits
    either a point follows, and then the digits behind it must be there
    and lead to the level, or the run itself is the [\d+] and leads to the
    level.  No other split of the digits changes the text that is
    matched, and giving back the sign or the point leaves the attempt at a
    character that is no digit, so it fails. *)
Definition matchAt (s : string) : option (string * Level * nat) :=
  let '(sign, s1) :=
    match s with
    | String "-" r => ("-", r)
    | _ => ("", s)
    end in
  let (d1, s2) := JS.spanDigits s1 in
  match s2 with
  | String "." s3 =>
      let (d2, s4) := JS.spanDigits s3 in
      match d2, levelAt s4 with
      | String _ _, Some (k, n) =>
          let text := sign ++ d1 ++ "." ++ d2 in
          Some (text, k, (String.length text + n)%nat)
      | _, _ => None
      end
  | _ =>
      match d1, levelAt s2 with
      | String _ _, Some (k, n) =>
          let text := sign ++ d1 in
          Some (text, k, (String.length text + n)%nat)
      | _, _ => None
      end
  end.

(** [score.matchAll(...)]: the matches from left to right, the search
    going on behind each match.  [skip] counts the characters of the
    last match that are still to be passed. *)
Fixpoint matchAll (s : string) (skip : nat) : list (string * Level) :=
  match s with
  | EmptyString => []
  | String _ r =>
      match skip with
      | S n => matchAll r n
      | O =>
          match matchAt s with
          | Some (text, k, len) => (text, k) :: matchAll r (len - 1)
          | None => matchAll r 0
          end
      end
  end.

(** [parseFloat] on the text of a first group, [-?\d*\.?\d+]: the exact
    value of the decimal literal.  A double holds it unchanged when it is
    an integer below 2^53, and separates any two literals of up to fifteen
    significant digits, which is all that the comparisons below look at;
    [-0] compares and prints as [0]. *)
Definition parseFloat (text : string) : Q :=
  let '(neg, s1) :=
    match text with
    | String "-" r => (true, r)
    | _ => (false, text)
    end in
  let (d1, s2) := JS.spanDigits s1 in
  let d2 := match s2 with
            | String "." s3 => fst (JS.spanDigits s3)
            | _ => EmptyString
            end in
  let m := JS.digitsValue (d1 ++ d2) 0 in
  Qmake (if neg then - m else m) (Z.to_pos (10 ^ Z.of_nat (String.length d2))).

(** [getScoreComponents(score)] *)
Definition getScoreComponents (score : ScoreValue) : ScoreComponents :=
  let components := {| hard := 0; medium := 0; soft := 0 |} in
  match score with
  | ScoreString s =>
      fold_left (fun c m => setComponent (snd m) (parseFloat (fst m)) c)
                (matchAll s 0) components
  | _ => components
  end.

(** Truthiness of a score value. *)
Definition truthyScore (score : ScoreValue) : bool :=
  match score with
  | ScoreString s => JS.truthyString s
  | ScoreObject => true
  | ScoreNull | ScoreUndefined => false
  end.

(** [formatScore(score)] *)
Definition formatScore (score : ScoreValue) : string :=
  let isQuestionMark :=
    match score with
    | ScoreString s => String.eqb s "?"
    | _ => false
    end in
  if negb (truthyScore score) || isQuestionMark then "?"
  else
    let components := getScoreComponents score in
    JS.numberToString (hard components) ++ "/"
      ++ JS.numberToString (soft components).

(** [x || y] on score values. *)
Definition scoreOr (x y : ScoreValue) : ScoreValue :=
  if truthyScore x then x else y.

(** ** KPI metrics *)

(** [r.name === v] and [t.resource === v] for a string [v]: a [null]
    field equals no string. *)
Definition sameName (field : option string) (v : string) : bool :=
  match field with
  | Some s => String.eqb s v
  | None => false
  end.

(** The body of the [forEach] over the tasks in [countViolations]: does
    this task add one to the count? *)
Definition skillViolation (rs : list Resource) (task : Task) : bool :=
  if JS.truthy (resource task) && JS.truthy (requiredSkill task) then
    match find (fun r => sameName (resource task) (name r)) rs with
    | Some r =>
        match skills r, requiredSkill task with
        | Some sk, Some skill => negb (JS.includes skill sk)
        | _, _ => false
        end
    | None => false
    end
  else false.

(** The sum of [t.duration] over the tasks with [t.resource === n]. *)
Definition totalDuration (ts : list Task) (n : string) : Z :=
  fold_left (fun sum t => sum + duration t)
            (filter (fun t => sameName (resource t) n) ts) 0.

(** The body of the [forEach] over the resources in [countViolations]. *)
Definition capacityViolation (ts : list Task) (r : Resource) : bool :=
  capacity r <? totalDuration ts (name r).

(** [countViolations(schedule)] *)
Definition countViolations (schedule : Schedule) : nat :=
  match tasks schedule, resources schedule with
  | Some ts, Some rs =>
      (List.length (filter (skillViolation rs) ts)
       + List.length (filter (capacityViolation ts) rs))%nat
  | _, _ => 0%nat
  end.

(** [t.resource != null] *)
Definition isAssigned (t : Task) : bool :=
  match resource t with Some _ => true | None => false end.

(** ** The page and the browser *)

(** [showNotification(message, type)]: one more toast. *)
Definition showNotification (msg ty : string) (st : State) : State :=
  set_notifications (notifications st ++ [{| message := msg; type := ty |}]) st.

(** An AJAX call: the request leaves and its callbacks wait. *)
Definition ajax (r : Request) (k : Callback) (st : State) : State :=
  set_requests (pending st ++ [(r, k)]) (sent st ++ [r]) st.

(** [setInterval(refreshSchedule, 2000)]: a new timer runs, its id is
    returned. *)
Definition setInterval (st : State) : nat * State :=
  let i := nextIntervalId st in
  (i, set_intervals (intervals st ++ [i]) (S i) st).

(** [clearInterval(i)] *)
Definition clearInterval (i : nat) (st : State) : State :=
  set_intervals (filter (fun j => negb (Nat.eqb j i)) (intervals st))
                (nextIntervalId st) st.

(** [refreshSolvingButtons(solving)] *)
Definition refreshSolvingButtons (solving : bool) (st : State) : State :=
  if solving then
    let st := set_buttons false true true st in
    match autoRefreshIntervalId st with
    | None =>
        let (i, st) := setInterval st in
        set_autoRefreshIntervalId (Some i) st
    | Some _ => st
    end
  else
    let st := set_buttons true false false st in
    match autoRefreshIntervalId st with
    | Some i => set_autoRefreshIntervalId None (clearInterval i st)
    | None => st
    end.

(** [updateKPIs(schedule)]: the four KPI values become the text of the
    new metrics (the pulse animation of a changed value is not modelled). *)
Definition updateKPIs (schedule : Schedule) (st : State) : State :=
  let totalTasks :=
    match tasks schedule with Some ts => List.length ts | None => 0%nat end in
  let assignedTasks :=
    match tasks schedule with
    | Some ts => List.length (filter isAssigned ts)
    | None => 0%nat
    end in
  let violations := countViolations schedule in
  let score := scoreOr (score schedule) (ScoreString "?") in
  set_kpis (JS.natToString totalTasks) (JS.natToString assignedTasks)
           (JS.natToString violations) (formatScore score) st.

(** [schedule.solverStatus != null && schedule.solverStatus !== "NOT_SOLVING"] *)
Definition isSolving (schedule : Schedule) : bool :=
  match solverStatus schedule with
  | Some status => negb (String.eqb status "NOT_SOLVING")
  | None => false
  end.

(** [renderSolution] and [renderResources] only write the two card panels,
    which no handler reads back, so the panels are not part of the state.
    What matters is whether the rendering completes: [checkTaskViolation]
    reads [schedule.resources.find] for a task with a resource and a
    required skill, which throws when the resources array is missing. *)
Definition renderSolutionThrows (schedule : Schedule) : bool :=
  match tasks schedule, resources schedule with
  | Some ts, None =>
      existsb (fun t => JS.truthy (resource t) && JS.truthy (requiredSkill t)) ts
  | _, _ => false
  end.

(** [renderSchedule(schedule)].  The second component tells whether an
    exception left the function (and so the handler that called it). *)
Definition renderSchedule (schedule : option Schedule) (st : State) :
  State * bool :=
  match schedule with
  | None => (st, false)
  | Some sch =>
      let st := refreshSolvingButtons (isSolving sch) st in
      let st := updateKPIs sch st in
      (st, renderSolutionThrows sch)
  end.

(** ** Loading the schedule *)

(** [refreshSchedule()]: the synchronous part, up to the request. *)
Definition refreshSchedule (st : State) : State :=
  match scheduleId st with
  | Some sid =>
      ajax {| method := GET; url := "/schedules/" ++ sid; body := NoBody |}
           OnSchedule st
  | None =>
      match demoDataId st with
      | None =>
          showNotification "Please select a dataset from the Data dropdown."
                           "warning" st
      | Some d =>
          ajax {| method := GET; url := "/demo-data/" ++ d; body := NoBody |}
               OnSchedule st
      end
  end.

(** The success callback of [refreshSchedule]. *)
Definition onSchedule (schedule : option Schedule) (st : State) : State :=
  let st := set_loadedSchedule schedule st in
  fst (renderSchedule schedule st).

(** The [fail] callback of [refreshSchedule]. *)
Definition onScheduleFailed (st : State) : State :=
  let st := showNotification "Failed to load schedule data." "danger" st in
  refreshSolvingButtons false st.

(** The click handler of a dataset in the dropdown. *)
Definition selectDataset (item : string) (st : State) : State :=
  let st := set_scheduleId None st in
  let st := set_demoDataId (Some item) st in
  refreshSchedule st.

(** ** Constraint weights *)

(** [getConstraintWeights()] *)
Definition getConstraintWeights (st : State) : ConstraintWeights :=
  {| required_skill := JS.parseIntOr (weightRequiredSkill st) 100;
     resource_capacity := JS.parseIntOr (weightResourceCapacity st) 100;
     minimize_duration := JS.parseIntOr (weightMinimizeDuration st) 50;
     balance_load := JS.parseIntOr (weightBalanceLoad st) 50 |}.

(** ** Solving *)

(** [solve()]: the synchronous part. *)
Definition solve (st : State) : State :=
  match loadedSchedule st with
  | None =>
      showNotification "No data loaded. Please select a dataset first."
                       "warning" st
  | Some sch =>
      let constraintWeights := getConstraintWeights st in
      ajax {| method := POST; url := "/schedules";
              body := SolveBody sch constraintWeights |}
           OnSolveStarted st
  end.

(** The success callback of [solve]: [data] is the job id. *)
Definition onSolveStarted (data : string) (st : State) : State :=
  let st := set_scheduleId (Some data) st in
  let st := refreshSolvingButtons true st in
  showNotification "Solver started!" "success" st.

(** The [fail] callback of [solve]. *)
Definition onSolveFailed (thrownError : string) (st : State) : State :=
  let st := showNotification ("Failed to start solving: " ++ thrownError)
                             "danger" st in
  refreshSolvingButtons false st.

(** [stopSolving()]: the synchronous part. *)
Definition stopSolving (st : State) : State :=
  match scheduleId st with
  | Some sid =>
      if negb (JS.truthyString sid) then st
      else
        ajax {| method := DELETE; url := "/schedules/" ++ sid; body := NoBody |}
             OnStopped st
  | None => st
  end.

(** The success callback of [stopSolving]. *)
Definition onStopped (st : State) : State :=
  let st := refreshSolvingButtons false st in
  let st := refreshSchedule st in
  showNotification "Solver stopped" "info" st.

(** The [fail] callback of [stopSolving]. *)
Definition onStopFailed (thrownError : string) (st : State) : State :=
  showNotification ("Failed to stop solving: " ++ thrownError) "danger" st.

(** ** The event loop *)

(** Did the request succeed?  Every answer but a failure reaches the
    success callback. *)
Definition succeeded (a : Answer) : bool :=
  match a with
  | FailAnswer _ => false
  | _ => true
  end.

(** The callback of kind [k] runs on the answer [a].  The success callback
    of [stopSolving] takes no argument, so it runs on every answer that is
    not a failure, with a body or without one.  The success callbacks of
    [refreshSchedule] and [solve] read their argument: they are modelled on
    the bodies that the state can hold (a schedule or [null], a job id that
    is a text), and an answer of another shape runs nothing. *)
Definition runCallback (k : Callback) (a : Answer) (st : State) : State :=
  match k, a with
  | OnSchedule, ScheduleAnswer s => onSchedule s st
  | OnSchedule, FailAnswer _ => onScheduleFailed st
  | OnSolveStarted, TextAnswer data => onSolveStarted data st
  | OnSolveStarted, FailAnswer e => onSolveFailed e st
  | OnStopped, FailAnswer e => onStopFailed e st
  | OnStopped, _ => onStopped st
  | _, _ => st
  end.

(** Removes the element at position [i]. *)
Fixpoint removeNth {A : Type} (i : nat) (l : list A) : list A :=
  match l, i with
  | [], _ => []
  | _ :: r, O => r
  | x :: r, S j => x :: removeNth j r
  end.

(** The answer [a] to the [i]-th waiting request arrives. *)
Definition deliver (i : nat) (a : Answer) (st : State) : State :=
  match nth_error (pending st) i with
  | Some (_, k) =>
      runCallback k a (set_requests (removeNth i (pending st)) (sent st) st)
  | None => st
  end.

(** A tick of the polling timer [i], if it still runs. *)
Definition tick (i : nat) (st : State) : State :=
  if existsb (Nat.eqb i) (intervals st) then refreshSchedule st else st.

(** ** Score analysis *)

(** An entry of [scoreAnalysis.constraints]; the match records are opaque
    and only counted. *)
Record Constraint := {
  constraintName : string;
  constraintScore : ScoreValue;
  matches : option (list unit)
}.

(** The comparator given to [constraints.sort]. *)
Definition compareConstraints (a b : Constraint) : Q :=
  let aComponents := getScoreComponents (constraintScore a) in
  let bComponents := getScoreComponents (constraintScore b) in
  if JS.Qltb (hard aComponents) 0 && Qle_bool 0 (hard bComponents) then (-1)%Q
  else if Qle_bool 0 (hard aComponents) && JS.Qltb (hard bComponents) 0 then 1%Q
  else if negb (Qeq_bool (Qabs (hard aComponents)) (Qabs (hard bComponents)))
  then (Qabs (hard bComponents) - Qabs (hard aComponents))%Q
  else (Qabs (soft bComponents) - Qabs (soft aComponents))%Q.

(** The order in which [renderScoreAnalysis] lists the constraints. *)
Definition sortConstraints (constraints : list Constraint) : list Constraint :=
  JS.sort compareConstraints constraints.

Inductive Icon := IconViolated | IconSatisfied | IconMatched.

(** A row of the analysis table: icon, name, type badge (hard or soft),
    number of matches, score shown. *)
Record Row := {
  icon : Icon;
  rowName : string;
  isHard : bool;
  matchCount : nat;
  scoreDisplay : string
}.

(** The body of the [forEach] that builds the table. *)
Definition analysisRow (constraint : Constraint) : Row :=
  let components :=
    getScoreComponents
      (scoreOr (constraintScore constraint) (ScoreString "0hard/0soft")) in
  let isHard := negb (Qeq_bool (hard components) 0) in
  let matchCount :=
    match matches constraint with
    | Some ms => List.length ms
    | None => 0%nat
    end in
  {| icon := if isHard && JS.Qltb (hard components) 0 then IconViolated
             else if Nat.eqb matchCount 0 then IconSatisfied
             else IconMatched;
     rowName := constraintName constraint;
     isHard := isHard;
     matchCount := matchCount;
     scoreDisplay := JS.numberToString
                       (if isHard then hard components else soft components) |}.

(** What [renderScoreAnalysis] puts into the modal. *)
Inductive AnalysisView :=
| NoConstraintData
| AnalysisTable (rows : list Row).

(** [renderScoreAnalysis(scoreAnalysis, container)], given
    [scoreAnalysis.constraints]. *)
Definition renderScoreAnalysis (constraints : option (list Constraint)) :
  AnalysisView :=
  let constraints := match constraints with Some cs => cs | None => [] end in
  match constraints with
  | [] => NoConstraintData
  | _ => AnalysisTable (map analysisRow (sortConstraints constraints))
  end.

(** ** Local edits of the loaded schedule *)

(** [{ resources: [], tasks: [] }] *)
Definition emptySchedule : Schedule :=
  {| resources := Some []; tasks := Some [];
     score := ScoreUndefined; solverStatus := None |}.

Definition set_resources (rs : option (list Resource)) (sch : Schedule) :
  Schedule :=
  {| resources := rs; tasks := tasks sch;
     score := score sch; solverStatus := solverStatus sch |}.

Definition set_tasks (ts : option (list Task)) (sch : Schedule) : Schedule :=
  {| resources := resources sch; tasks := ts;
     score := score sch; solverStatus := solverStatus sch |}.

Definition set_resource (r : option string) (t : Task) : Task :=
  {| id := id t; taskName := taskName t; duration := duration t;
     requiredSkill := requiredSkill t; resource := r |}.

(** The end of a local edit: the schedule is rendered again and, if the
    rendering completes, the toast is shown.  (The modal of an add is
    hidden before; the modals are not part of the state.) *)
Definition rerender (msg ty : string) (st : State) : State :=
  let (st, thrown) := renderSchedule (loadedSchedule st) st in
  if thrown : bool then st else showNotification msg ty st.

(** [addResource()], on the three values typed into the modal. *)
Definition addResource (resourceName resourceCapacity resourceSkills : string)
  (st : State) : State :=
  let name_ := JS.trim resourceName in
  let capacity_ := JS.parseIntOr resourceCapacity 100 in
  let skillsStr := JS.trim resourceSkills in
  let skills_ :=
    if JS.truthyString skillsStr
    then map (fun s => JS.toLowerCase (JS.trim s)) (JS.split "," skillsStr)
    else [] in
  if negb (JS.truthyString name_) then
    showNotification "Please enter a resource name" "warning" st
  else
    let duplicate :=
      match loadedSchedule st with
      | Some sch =>
          match resources sch with
          | Some rs => existsb (fun r => String.eqb (name r) name_) rs
          | None => false
          end
      | None => false
      end in
    if duplicate then
      showNotification "A resource with this name already exists" "warning" st
    else
      let sch :=
        match loadedSchedule st with
        | Some sch => sch
        | None => emptySchedule
        end in
      let rs := match resources sch with Some rs => rs | None => [] end in
      let sch :=
        set_resources
          (Some (rs ++ [{| name := name_; capacity := capacity_;
                           skills := Some skills_ |}])%list) sch in
      let st := set_loadedSchedule (Some sch) st in
      rerender ("Added resource: " ++ name_) "success" st.

(** [removeResource(resourceName, event)] *)
Definition removeResource (resourceName : string) (st : State) : State :=
  match loadedSchedule st with
  | None => st
  | Some sch =>
      match resources sch with
      | None => st
      | Some rs =>
          let sch :=
            set_resources
              (Some (filter (fun r => negb (String.eqb (name r) resourceName))
                            rs)) sch in
          let sch :=
            match tasks sch with
            | Some ts =>
                set_tasks
                  (Some (map (fun task =>
                                if sameName (resource task) resourceName
                                then set_resource None task else task) ts))
                  sch
            | None => sch
            end in
          let st := set_loadedSchedule (Some sch) st in
          rerender ("Removed resource: " ++ resourceName) "info" st
      end
  end.

(** The id [task-{counter}]. *)
Definition taskId (counter : nat) : string := "task-" ++ JS.natToString counter.

(** The [while] loop of [addTask]: the first counter from [counter] on
    whose id is not among [existingIds].  Every turn of the loop takes one
    unit of [fuel]. *)
Fixpoint freeCounter (fuel counter : nat) (existingIds : list string) :
  option nat :=
  match fuel with
  | O => None
  | S f =>
      if JS.includes (taskId counter) existingIds
      then freeCounter f (S counter) existingIds
      else Some counter
  end.

(** [addTask()], on the three values typed into the modal.  The loop gets
    one more turn than there are tasks; [None] would be a loop that is
    still running then. *)
Definition addTask (taskName_ taskDuration taskSkill : string) (st : State) :
  option State :=
  let name_ := JS.trim taskName_ in
  let duration_ := JS.parseIntOr taskDuration 30 in
  let requiredSkill_ := JS.toLowerCase (JS.trim taskSkill) in
  if negb (JS.truthyString name_) then
    Some (showNotification "Please enter a task name" "warning" st)
  else
    let sch :=
      match loadedSchedule st with
      | Some sch => sch
      | None => emptySchedule
      end in
    let ts := match tasks sch with Some ts => ts | None => [] end in
    let existingIds := map id ts in
    match freeCounter (S (List.length ts)) (List.length ts + 1) existingIds with
    | None => None
    | Some counter =>
        let newId := taskId counter in
        let sch :=
          set_tasks
            (Some (ts ++ [{| id := newId; taskName := name_;
                             duration := duration_;
                             requiredSkill := Some requiredSkill_;
                             resource := None |}])%list) sch in
        let st := set_loadedSchedule (Some sch) st in
        Some (rerender ("Added task: " ++ name_) "success" st)
    end.

(** [removeTask(taskId, event)] *)
Definition removeTask (taskId_ : string) (st : State) : State :=
  match loadedSchedule st with
  | None => st
  | Some sch =>
      match tasks sch with
      | None => st
      | Some ts =>
          let taskName_ :=
            match find (fun t => String.eqb (id t) taskId_) ts with
            | Some t => taskName t
            | None => taskId_
            end in
          let sch :=
            set_tasks
              (Some (filter (fun t => negb (String.eqb (id t) taskId_)) ts))
              sch in
          let st := set_loadedSchedule (Some sch) st in
          rerender ("Removed task: " ++ taskName_) "info" st
      end
  end.

(** ** Derived operations and sample data *)

(** [stopSolving()] and then the arrival of the answer to the request it
    has just sent (the last of the waiting ones). *)
Definition stopSolvingAnswered (a : Answer) (st : State) : State :=
  deliver (List.length (pending st)) a (stopSolving st).

(** The page shows the idle state and no polling timer is held. *)
Definition notSolvingView (st : State) : Prop :=
  autoRefreshIntervalId st = None
  /\ solveButtonShown st = true
  /\ stopSolvingButtonShown st = false
  /\ solvingSpinnerActive st = false.

(** The tasks and the resources of the loaded schedule, none if there is
    no schedule or no such array. *)
Definition loadedTasks (st : State) : list Task :=
  match loadedSchedule st with
  | Some sch => match tasks sch with Some ts => ts | None => [] end
  | None => []
  end.

Definition loadedResources (st : State) : list Resource :=
  match loadedSchedule st with
  | Some sch => match resources sch with Some rs => rs | None => [] end
  | None => []
  end.

(** The page after it was loaded, before any dataset arrived. *)
Definition startState : State :=
  {| autoRefreshIntervalId := None; demoDataId := None; scheduleId := None;
     loadedSchedule := None;
     solveButtonShown := true; stopSolvingButtonShown := false;
     solvingSpinnerActive := false;
     kpiTotalTasks := "0"; kpiAssigned := "0"; kpiViolations := "0";
     kpiScore := "?";
     weightRequiredSkill := "100"; weightResourceCapacity := "100";
     weightMinimizeDuration := "50"; weightBalanceLoad := "50";
     intervals := []; nextIntervalId := 1%nat;
     pending := []; sent := []; notifications := [] |}.

(** One resource and two tasks on it: the second task needs a skill the
    resource lacks, and together they exceed its capacity. *)
Definition resourceA : Resource :=
  {| name := "A"; capacity := 60; skills := Some ["x"] |}.

Definition task1 : Task :=
  {| id := "t1"; taskName := "First"; duration := 40;
     requiredSkill := Some "x"; resource := Some "A" |}.

Definition task2 : Task :=
  {| id := "t2"; taskName := "Second"; duration := 30;
     requiredSkill := Some "y"; resource := Some "A" |}.

Definition sampleSchedule : Schedule :=
  {| resources := Some [resourceA]; tasks := Some [task1; task2];
     score := ScoreNull; solverStatus := Some "NOT_SOLVING" |}.

(** A dataset was selected and has arrived. *)
Definition loadedState : State :=
  deliver 0 (ScheduleAnswer (Some sampleSchedule))
          (selectDataset "SMALL" startState).

(** Solve was pressed and the job id has arrived. *)
Definition solvingState : State :=
  deliver 0 (TextAnswer "job-1") (solve loadedState).

(** The same page with the first slider pulled down to zero. *)
Definition zeroWeightState : State :=
  {| autoRefreshIntervalId := None; demoDataId := Some "SMALL";
     scheduleId := None; loadedSchedule := Some sampleSchedule;
     solveButtonShown := true; stopSolvingButtonShown := false;
     solvingSpinnerActive := false;
     kpiTotalTasks := "2"; kpiAssigned := "2"; kpiViolations := "2";
     kpiScore := "?";
     weightRequiredSkill := "0"; weightResourceCapacity := "100";
     weightMinimizeDuration := "50"; weightBalanceLoad := "50";
     intervals := []; nextIntervalId := 1%nat;
     pending := []; sent := []; notifications := [] |}.

(** A schedule object that came without a [resources] array; its task
    names a resource and requires no skill. *)
Definition task3 : Task :=
  {| id := "t3"; taskName := "Third"; duration := 10;
     requiredSkill := Some ""; resource := Some "A" |}.

Definition scheduleWithoutResources : Schedule :=
  {| resources := None; tasks := Some [task3];
     score := ScoreNull; solverStatus := Some "NOT_SOLVING" |}.

Definition withoutResourcesState : State :=
  deliver 0 (ScheduleAnswer (Some scheduleWithoutResources))
          (selectDataset "SMALL" startState).

(** Two tasks whose ids collide with the first id that [addTask] tries. *)
Definition collidingSchedule : Schedule :=
  {| resources := Some [resourceA];
     tasks := Some [{| id := "task-3"; taskName := "Third"; duration := 10;
                       requiredSkill := Some ""; resource := None |};
                    {| id := "task-4"; taskName := "Fourth"; duration := 10;
                       requiredSkill := Some ""; resource := None |}];
     score := ScoreNull; solverStatus := Some "NOT_SOLVING" |}.

(** The answer to a poll while the solver still runs. *)
Definition runningSchedule : Schedule :=
  {| resources := Some [resourceA]; tasks := Some [task1; task2];
     score := ScoreString "-1hard/-20soft";
     solverStatus := Some "SOLVING_ACTIVE" |}.

Definition collidingState : State :=
  deliver 0 (ScheduleAnswer (Some collidingSchedule))
          (selectDataset "SMALL" startState).

(** *** The violation count in the words of the specification

    A task counts when its resource is not null, its required skill is not
    empty and the skill list of the resource of that name lacks the skill;
    a resource counts when the durations of the tasks assigned to it add up
    to more than its capacity. *)
Definition statedSkillViolation (rs : list Resource) (task : Task) : bool :=
  match resource task, requiredSkill task with
  | Some n, Some skill =>
      JS.truthyString skill
      && match find (fun r => String.eqb (name r) n) rs with
         | Some r =>
             match skills r with
             | Some sk => negb (JS.includes skill sk)
             | None => false
             end
         | None => false
         end
  | _, _ => false
  end.

Definition statedCapacityViolation (ts : list Task) (r : Resource) : bool :=
  capacity r
  <? fold_right Z.add 0
       (map duration (filter (fun t => sameName (resource t) (name r)) ts)).

Definition statedViolationCount (schedule : Schedule) : nat :=
  match tasks schedule, resources schedule with
  | Some ts, Some rs =>
      (List.length (filter (statedSkillViolation rs) ts)
       + List.length (filter (statedCapacityViolation ts) rs))%nat
  | _, _ => 0%nat
  end.

(** A resource whose name is the empty string, and a task that names it
    and needs a skill the resource lacks. *)
Definition unnamedSchedule : Schedule :=
  {| resources := Some [{| name := ""; capacity := 100; skills := Some ["x"] |}];
     tasks := Some [{| id := "t1"; taskName := "First"; duration := 10;
                       requiredSkill := Some "y"; resource := Some "" |}];
     score := ScoreNull; solverStatus := Some "NOT_SOLVING" |}.

(** *** The display order of the analysis *)

Definition hardOf (c : Constraint) : Q :=
  hard (getScoreComponents (constraintScore c)).

Definition softOf (c : Constraint) : Q :=
  soft (getScoreComponents (constraintScore c)).

(** [a] is listed no later than [b]: [a] has a negative hard component and
    [b] has not, or both are on the same side and either the hard
    component of [a] is the larger in magnitude, or the magnitudes are
    equal and the soft component of [a] is not the smaller in magnitude. *)
Definition listedBefore (a b : Constraint) : Prop :=
  (hardOf a < 0 /\ 0 <= hardOf b)%Q
  \/ (((hardOf a < 0 /\ hardOf b < 0) \/ (0 <= hardOf a /\ 0 <= hardOf b))
      /\ (Qabs (hardOf b) < Qabs (hardOf a)
          \/ (Qabs (hardOf a) == Qabs (hardOf b)
              /\ Qabs (softOf b) <= Qabs (softOf a))))%Q.

(** The two constraints tie: same side, same magnitudes. *)
Definition sameKey (a b : Constraint) : bool :=
  Bool.eqb (JS.Qltb (hardOf a) 0) (JS.Qltb (hardOf b) 0)
  && Qeq_bool (Qabs (hardOf a)) (Qabs (hardOf b))
  && Qeq_bool (Qabs (softOf a)) (Qabs (softOf b)).

(** The order in the words of the specification: constraints with a
    negative hard component first, among those by descending magnitude
    of the hard component, the remaining ones by descending magnitude of
    the soft component, ties in the order of arrival. *)
Definition statedCompare (a b : Constraint) : Q :=
  if JS.Qltb (hardOf a) 0 && Qle_bool 0 (hardOf b) then (-1)%Q
  else if Qle_bool 0 (hardOf a) && JS.Qltb (hardOf b) 0 then 1%Q
  else if JS.Qltb (hardOf a) 0
  then (Qabs (hardOf b) - Qabs (hardOf a))%Q
  else (Qabs (softOf b) - Qabs (softOf a))%Q.

Definition statedOrder (constraints : list Constraint) : list Constraint :=
  JS.sort statedCompare constraints.

Definition constraintOf (n s : string) : Constraint :=
  {| constraintName := n; constraintScore := ScoreString s; matches := Some [] |}.

(** The example of the specification. *)
Definition exampleConstraints : list Constraint :=
  [constraintOf "Cap" "-1hard/0soft";
   constraintOf "Bal" "0hard/-20soft";
   constraintOf "Skill" "-3hard/0soft"].

(** A soft penalty and a constraint that rewards on the hard level. *)
Definition rewardConstraints : list Constraint :=
  [constraintOf "Bal" "0hard/-5soft";
   constraintOf "Bonus" "1hard/0soft"].

(** Two violated hard constraints of the same hard magnitude. *)
Definition tiedHardConstraints : list Constraint :=
  [constraintOf "Cap" "-1hard/0soft";
   constraintOf "Skill" "-1hard/-5soft"].

(** ** Further handlers of the script *)

(** [checkTaskViolation(task, schedule)], which decides the red border of
    a task card.  [None] is the TypeError of [schedule.resources.find] on a
    schedule without resources array. *)
Definition checkTaskViolation (task : Task) (schedule : Schedule) : option bool :=
  if negb (JS.truthy (resource task)) then Some false
  else if JS.truthy (requiredSkill task) then
    match resources schedule with
    | None => None
    | Some rs =>
        match find (fun r => sameName (resource task) (name r)) rs with
        | Some r =>
            let hasSkill :=
              match skills r, requiredSkill task with
              | Some sk, Some skill => JS.includes skill sk
              | _, _ => false
              end in
            if negb hasSkill then Some true else Some false
        | None => Some false
        end
    end
  else Some false.

(** The state of a task card in [createTaskCard]. *)
Inductive CardState := CardViolation | CardUnassigned | CardAssigned.

Definition cardState (task : Task) (schedule : Schedule) : option CardState :=
  match checkTaskViolation task schedule with
  | None => None
  | Some hasViolation =>
      Some (if hasViolation then CardViolation
            else if negb (isAssigned task) then CardUnassigned
            else CardAssigned)
  end.

Definition set_weights (w1 w2 w3 w4 : string) (st : State) : State :=
  {| autoRefreshIntervalId := autoRefreshIntervalId st;
     demoDataId := demoDataId st; scheduleId := scheduleId st;
     loadedSchedule := loadedSchedule st;
     solveButtonShown := solveButtonShown st;
     stopSolvingButtonShown := stopSolvingButtonShown st;
     solvingSpinnerActive := solvingSpinnerActive st;
     kpiTotalTasks := kpiTotalTasks st; kpiAssigned := kpiAssigned st;
     kpiViolations := kpiViolations st; kpiScore := kpiScore st;
     weightRequiredSkill := w1; weightResourceCapacity := w2;
     weightMinimizeDuration := w3; weightBalanceLoad := w4;
     intervals := intervals st; nextIntervalId := nextIntervalId st;
     pending := pending st; sent := sent st;
     notifications := notifications st |}.

(** [resetConstraintWeights()]: every slider gets the text of its default
    (the value labels beside the sliders are not part of the state). *)
Definition resetConstraintWeights (st : State) : State :=
  let st :=
    set_weights (JS.intToString (required_skill DEFAULT_WEIGHTS))
                (JS.intToString (resource_capacity DEFAULT_WEIGHTS))
                (JS.intToString (minimize_duration DEFAULT_WEIGHTS))
                (JS.intToString (balance_load DEFAULT_WEIGHTS)) st in
  showNotification "Constraint weights reset to defaults" "info" st.

(** *** The session as a run of events *)

(** What can happen to the page: the clicks and submits of the user, the
    arrival of an answer, a tick of a timer. *)
Inductive Event :=
| ClickSolve
| ClickStop
| ClickDataset (item : string)
| ClickResetWeights
| SubmitResource (resourceName resourceCapacity resourceSkills : string)
| ClickRemoveResource (resourceName : string)
| SubmitTask (taskName_ taskDuration taskSkill : string)
| ClickRemoveTask (taskId_ : string)
| Arrives (i : nat) (a : Answer)
| Ticks (i : nat).

Definition handle (e : Event) (st : State) : State :=
  match e with
  | ClickSolve => solve st
  | ClickStop => stopSolving st
  | ClickDataset item => selectDataset item st
  | ClickResetWeights => resetConstraintWeights st
  | SubmitResource n c s => addResource n c s st
  | ClickRemoveResource r => removeResource r st
  | SubmitTask n d s =>
      match addTask n d s st with Some st' => st' | None => st end
  | ClickRemoveTask t => removeTask t st
  | Arrives i a => deliver i a st
  | Ticks i => tick i st
  end.

Definition run (events : list Event) (st : State) : State :=
  fold_left (fun st e => handle e st) events st.

(** The polling handle and the running timers agree: the timer of the
    handle runs and no other one does. *)
Definition timersConsistent (st : State) : Prop :=
  intervals st
  = match autoRefreshIntervalId st with Some i => [i] | None => [] end.

(** A tick of timer [i] and then the arrival of the answer to the
    request of that tick. *)
Definition pollAnswered (i : nat) (a : Answer) (st : State) : State :=
  deliver (List.length (pending st)) a (tick i st).

(** [solve()] and then the arrival of the answer to its request. *)
Definition solveAnswered (a : Answer) (st : State) : State :=
  deliver (List.length (pending st)) a (solve st).

(** A click on a dataset and then the arrival of the answer to its
    request. *)
Definition datasetAnswered (item : string) (a : Answer) (st : State) : State :=
  deliver (List.length (pending st)) a (selectDataset item st).

(** The text [s] does not go on with a digit. *)
Definition headNotDigit (s : string) : Prop :=
  match s with
  | String c _ => JS.isDigit c = false
  | EmptyString => True
  end.

(** The text of a hard/soft score with integer components, as the server
    writes it: ["0hard/-50soft"]. *)
Definition scoreText (h s : Z) : string :=
  JS.intToString h ++ "hard/" ++ JS.intToString s ++ "soft".

(** All characters of [s] are decimal digits. *)
Fixpoint allDigits (s : string) : bool :=
  match s with
  | EmptyString => true
  | String c r => JS.isDigit c && allDigits r
  end.

(** ** The colour factory of the shared utilities *)

(** [SEQUENCE_1] and [SEQUENCE_2] *)
Definition SEQUENCE_1 : list Z :=
  [0x8AE234; 0xFCE94F; 0x729FCF; 0xE9B96E; 0xAD7FA8].

Definition SEQUENCE_2 : list Z :=
  [0x73D216; 0xEDD400; 0x3465A4; 0xC17D11; 0x75507B].

(** [n.toString(16)] for an integer. *)
Definition toString16 (z : Z) : string :=
  if z <? 0
  then "-" ++ HexadecimalString.NilZero.string_of_uint (N.to_hex_uint (Z.to_N (- z)))
  else HexadecimalString.NilZero.string_of_uint (N.to_hex_uint (Z.to_N z)).

(** One channel of [buildPercentageColor]: [+] binds before [&], so the
    sum is masked as a whole.  The percentage is a fraction with a power of
    two below; its product with a channel difference is exact in a double
    as long as the numerator stays below 2^29. *)
Definition shadeChannel (mask floorColor ceilColor : Z) (shadePercentage : Q) : Z :=
  Z.land (Z.land floorColor mask
          + Qfloor (shadePercentage
                    * inject_Z (Z.land ceilColor mask - Z.land floorColor mask)))
         mask.

(** [buildPercentageColor(floorColor, ceilColor, shadePercentage)] *)
Definition buildPercentageColor (floorColor ceilColor : Z) (shadePercentage : Q) : Z :=
  let red := shadeChannel 0xFF0000 floorColor ceilColor shadePercentage in
  let green := shadeChannel 0x00FF00 floorColor ceilColor shadePercentage in
  let blue := shadeChannel 0x0000FF floorColor ceilColor shadePercentage in
  Z.lor (Z.lor red green) blue.

(** The loop [while (base >= divisor) divisor *= 2], one turn for a unit
    of [fuel]; [None] is a loop that has not ended. *)
Fixpoint doubleUntil (fuel : nat) (base divisor : Z) : option Z :=
  match fuel with
  | O => None
  | S f =>
      if divisor <=? base then doubleUntil f base (divisor * 2)
      else Some divisor
  end.

(** The shade percentage that [nextColor] computes in its last branch,
    from the shade index [Math.floor(nextColorCount / 5)]. *)
Definition shadePercentage (shadeIndex : Z) : option Q :=
  let shadeIndex := shadeIndex - 3 in
  let base := Qfloor (inject_Z shadeIndex / 2 + 1) in
  match doubleUntil (S (Z.to_nat base)) base 2 with
  | None => None
  | Some divisor =>
      let base := base * 2 - divisor + 1 in
      Some (inject_Z base / inject_Z divisor)%Q
  end.

(** The number that [nextColor] turns into text. *)
Definition nextColorValue (nextColorCount : nat) : option Z :=
  let colorIndex := (nextColorCount mod 5)%nat in
  let shadeIndex := (nextColorCount / 5)%nat in
  match shadeIndex with
  | O => Some (nth colorIndex SEQUENCE_1 0)
  | S O => Some (nth colorIndex SEQUENCE_2 0)
  | _ =>
      let floorColor := nth colorIndex SEQUENCE_2 0 in
      let ceilColor := nth colorIndex SEQUENCE_1 0 in
      match shadePercentage (Z.of_nat shadeIndex) with
      | None => None
      | Some pct => Some (buildPercentageColor floorColor ceilColor pct)
      end
  end.

(** [nextColor()], on the global [nextColorCount]: the colour text and the
    new count. *)
Definition nextColor (nextColorCount : nat) : option (string * nat) :=
  match nextColorValue nextColorCount with
  | None => None
  | Some color => Some ("#" ++ toString16 color, S nextColorCount)
  end.

(** ** Start of the page and code links *)

(** The success callback of [fetchDemoData]: every dataset gets an entry
    in the dropdown (whose click is [selectDataset]; the menu is not part
    of the state), and the first one is selected and fetched. *)
Definition onDemoData (data : list string) (st : State) : State :=
  match data with
  | [] => st
  | first :: _ => refreshSchedule (set_demoDataId (Some first) st)
  end.

(** The [fail] callback of [fetchDemoData]. *)
Definition onDemoDataFailed (st : State) : State :=
  showNotification "Failed to load demo data. Is the server running?" "danger" st.

(** The list of datasets arrives, and then the answer to the request
    that this has caused. *)
Definition demoDataAnswered (data : list string) (a : Answer) (st : State) :
  State :=
  deliver (List.length (pending st)) a (onDemoData data st).

(** [navigateToCode(target)]: the toast, and the arguments [filename] and
    [section] of the [loadSourceFile] that follows after the tab switch
    ([None] is [undefined]). *)
Definition navigateToCode (target : string) (st : State) :
  State * (string * option string) :=
  let parts := JS.split ":" target in
  let filename := nth 0 parts EmptyString in
  let section := nth_error parts 1 in
  let sectionInfo :=
    if JS.truthy section
    then match section with Some sec => "  " ++ sec | None => "" end
    else "" in
  (showNotification ("Viewing " ++ filename ++ sectionInfo) "info" st,
   (filename, section)).

(** The character [c] occurs in [s]. *)
Fixpoint occurs (c : ascii) (s : string) : bool :=
  match s with
  | EmptyString => false
  | String x r => Ascii.eqb x c || occurs c r
  end.

(** * Properties *)

(** ** Components that a step leaves alone *)

Lemma showNotification_spec msg ty st :
  showNotification msg ty st
  = set_notifications (notifications st ++ [{| message := msg; type := ty |}]) st.
Proof. reflexivity. Qed.

Lemma refreshSolvingButtons_loadedSchedule b st :
  loadedSchedule (refreshSolvingButtons b st) = loadedSchedule st.
Proof.
  unfold refreshSolvingButtons.
  destruct b; simpl; destruct (autoRefreshIntervalId st); reflexivity.
Qed.

Lemma renderSchedule_loadedSchedule sch st :
  loadedSchedule (fst (renderSchedule sch st)) = loadedSchedule st.
Proof.
  destruct sch as [sch|]; simpl; [|reflexivity].
  apply refreshSolvingButtons_loadedSchedule.
Qed.

Lemma rerender_loadedSchedule msg ty st :
  loadedSchedule (rerender msg ty st) = loadedSchedule st.
Proof.
  unfold rerender.
  pose proof (renderSchedule_loadedSchedule (loadedSchedule st) st) as H.
  destruct (renderSchedule (loadedSchedule st) st) as [st' thrown].
  simpl in H. destruct thrown; simpl; exact H.
Qed.

Lemma removeNth_last {A : Type} (l : list A) (x : A) :
  removeNth (List.length l) (l ++ [x]) = l.
Proof.
  induction l as [|y l IH]; simpl; [reflexivity|].
  now rewrite IH.
Qed.

Lemma nth_error_last {A : Type} (l : list A) (x : A) :
  nth_error (l ++ [x]) (List.length l) = Some x.
Proof.
  induction l as [|y l IH]; simpl; [reflexivity|exact IH].
Qed.

(** ** Scores *)

(** C7: [getScoreComponents("-2hard/-15soft")] has hard -2 and soft -15,
    and [formatScore] of [null] or of an absent score is ["?"]. *)
Theorem score_parsing_and_formatting :
  getScoreComponents (ScoreString "-2hard/-15soft")
  = {| hard := (-2 # 1)%Q; medium := 0%Q; soft := (-15 # 1)%Q |}
  /\ formatScore ScoreNull = "?"
  /\ formatScore ScoreUndefined = "?".
Proof. repeat split. Qed.

(** The doc comment of [formatScore] holds as well. *)
Example formatScore_examples :
  formatScore (ScoreString "0hard/-50soft") = "0/-50"
  /\ formatScore (ScoreString "-2hard/-15soft") = "-2/-15".
Proof. split; reflexivity. Qed.

(** ** Solve and stop *)

(** C8: [refreshSolvingButtons(false)] is idempotent, from every state:
    a second call changes nothing, and after the first one the polling
    handle is null, the solve button shown, the stop button hidden. *)
Theorem refreshSolvingButtons_false_idempotent (st : State) :
  refreshSolvingButtons false (refreshSolvingButtons false st)
  = refreshSolvingButtons false st
  /\ autoRefreshIntervalId (refreshSolvingButtons false st) = None
  /\ solveButtonShown (refreshSolvingButtons false st) = true
  /\ stopSolvingButtonShown (refreshSolvingButtons false st) = false.
Proof.
  unfold refreshSolvingButtons; simpl.
  destruct (autoRefreshIntervalId st) as [i|] eqn:E; simpl.
  - repeat split.
  - rewrite E. repeat split.
Qed.

(** Stopping a loop that is already stopped leaves the timers alone. *)
Lemma refreshSolvingButtons_false_stopped (st : State) :
  autoRefreshIntervalId st = None ->
  intervals (refreshSolvingButtons false st) = intervals st
  /\ notSolvingView (refreshSolvingButtons false st).
Proof.
  intros E. unfold refreshSolvingButtons, notSolvingView; simpl.
  rewrite E; simpl. repeat split. exact E.
Qed.

(** C3: without a loaded schedule [solve()] sends nothing: the warning toast
    is its only effect, so no POST leaves, nothing waits for an answer and
    [scheduleId] is what it was. *)
Theorem solve_without_schedule (st : State) :
  loadedSchedule st = None ->
  solve st
  = set_notifications
      (notifications st
       ++ [{| message := "No data loaded. Please select a dataset first.";
              type := "warning" |}]) st
  /\ sent (solve st) = sent st
  /\ pending (solve st) = pending st
  /\ scheduleId (solve st) = scheduleId st.
Proof.
  intros E. unfold solve. rewrite E. repeat split.
Qed.

Lemma solve_without_schedule_witness :
  sent (solve startState) = [] /\ scheduleId (solve startState) = None.
Proof.
  destruct (solve_without_schedule startState) as (_ & Hs & _ & Hi).
  - reflexivity.
  - split; [exact Hs | exact Hi].
Defined.

(** ** Constraint weights *)

Lemma parseIntOr_nonzero input dflt : dflt <> 0 -> JS.parseIntOr input dflt <> 0.
Proof.
  intros Hd. unfold JS.parseIntOr.
  destruct (JS.parseInt input) as [v|]; [|exact Hd].
  destruct (v =? 0) eqn:E; [exact Hd|].
  now apply Z.eqb_neq.
Qed.

Lemma parseIntOr_default input dflt :
  JS.parseInt input = None \/ JS.parseInt input = Some 0 ->
  JS.parseIntOr input dflt = dflt.
Proof.
  unfold JS.parseIntOr. intros [-> | ->]; reflexivity.
Qed.

(** C10: no weight returned by [getConstraintWeights] is zero.  A slider
    whose value parses to zero or does not parse gets the default of its
    constraint (100, 100, 50, 50), and these are the weights that [solve]
    puts into its request. *)
Theorem getConstraintWeights_never_zero (st : State) :
  (required_skill (getConstraintWeights st) <> 0
   /\ resource_capacity (getConstraintWeights st) <> 0
   /\ minimize_duration (getConstraintWeights st) <> 0
   /\ balance_load (getConstraintWeights st) <> 0)
  /\ ((JS.parseInt (weightRequiredSkill st) = None
       \/ JS.parseInt (weightRequiredSkill st) = Some 0 ->
       required_skill (getConstraintWeights st) = 100)
      /\ (JS.parseInt (weightResourceCapacity st) = None
          \/ JS.parseInt (weightResourceCapacity st) = Some 0 ->
          resource_capacity (getConstraintWeights st) = 100)
      /\ (JS.parseInt (weightMinimizeDuration st) = None
          \/ JS.parseInt (weightMinimizeDuration st) = Some 0 ->
          minimize_duration (getConstraintWeights st) = 50)
      /\ (JS.parseInt (weightBalanceLoad st) = None
          \/ JS.parseInt (weightBalanceLoad st) = Some 0 ->
          balance_load (getConstraintWeights st) = 50))
  /\ (forall sch, loadedSchedule st = Some sch ->
      sent (solve st)
      = (sent st ++ [{| method := POST; url := "/schedules";
                        body := SolveBody sch (getConstraintWeights st) |}])%list).
Proof.
  split; [|split].
  - repeat split; apply parseIntOr_nonzero; discriminate.
  - repeat split; apply parseIntOr_default.
  - intros sch E. unfold solve. rewrite E. reflexivity.
Qed.

Lemma getConstraintWeights_never_zero_witness :
  JS.parseInt (weightRequiredSkill zeroWeightState) = Some 0
  /\ required_skill (getConstraintWeights zeroWeightState) = 100
  /\ sent (solve zeroWeightState)
     = [{| method := POST; url := "/schedules";
           body := SolveBody sampleSchedule
                     {| required_skill := 100; resource_capacity := 100;
                        minimize_duration := 50; balance_load := 50 |} |}].
Proof.
  destruct (getConstraintWeights_never_zero zeroWeightState)
    as (_ & (Hw & _) & Hs).
  split; [reflexivity|]. split.
  - apply Hw. right. reflexivity.
  - apply (Hs sampleSchedule). reflexivity.
Defined.

(** *** Stop *)

Lemma stopSolving_request st sid :
  scheduleId st = Some sid -> sid <> "" ->
  stopSolving st
  = ajax {| method := DELETE; url := "/schedules/" ++ sid; body := NoBody |}
         OnStopped st.
Proof.
  intros E Hne. unfold stopSolving. rewrite E.
  destruct sid; [contradiction|reflexivity].
Qed.

Lemma runCallback_stopped a st :
  succeeded a = true -> runCallback OnStopped a st = onStopped st.
Proof. destruct a; simpl; intros H; try reflexivity. discriminate. Qed.

Lemma stopSolvingAnswered_callback a st sid :
  scheduleId st = Some sid -> sid <> "" ->
  stopSolvingAnswered a st
  = runCallback OnStopped a
      (set_requests (pending st)
         (sent st ++ [{| method := DELETE; url := "/schedules/" ++ sid;
                         body := NoBody |}]) st).
Proof.
  intros E Hne. unfold stopSolvingAnswered.
  rewrite (stopSolving_request st sid E Hne).
  unfold deliver, ajax; simpl.
  rewrite nth_error_last, removeNth_last. reflexivity.
Qed.

(** C1, as amended: with a job id set, [stopSolving] brings the page to the
    not-solving state when the DELETE succeeds, whatever the body of the
    answer: the solve button is shown, the stop button and the spinner are
    off, the handle is null, the timer that the handle named no longer
    runs and no timer is started (so none runs when the handle and the
    timers agreed), and the final fetch of the job is sent.  When the
    DELETE fails the failure is shown as a danger toast and buttons,
    spinner, polling handle and timers stay as they were. *)
Theorem stopSolving_outcomes (st : State) (sid : string) :
  scheduleId st = Some sid -> sid <> "" ->
  (forall a, succeeded a = true ->
     notSolvingView (stopSolvingAnswered a st)
     /\ (forall i, autoRefreshIntervalId st = Some i ->
                   ~ In i (intervals (stopSolvingAnswered a st)))
     /\ (forall j, In j (intervals (stopSolvingAnswered a st)) ->
                   In j (intervals st))
     /\ (timersConsistent st -> intervals (stopSolvingAnswered a st) = [])
     /\ sent (stopSolvingAnswered a st)
        = (sent st
           ++ [{| method := DELETE; url := "/schedules/" ++ sid; body := NoBody |};
               {| method := GET; url := "/schedules/" ++ sid; body := NoBody |}])%list)
  /\ (forall thrownError,
        notifications (stopSolvingAnswered (FailAnswer thrownError) st)
        = (notifications st
           ++ [{| message := "Failed to stop solving: " ++ thrownError;
                  type := "danger" |}])%list
        /\ autoRefreshIntervalId (stopSolvingAnswered (FailAnswer thrownError) st)
           = autoRefreshIntervalId st
        /\ intervals (stopSolvingAnswered (FailAnswer thrownError) st)
           = intervals st
        /\ solveButtonShown (stopSolvingAnswered (FailAnswer thrownError) st)
           = solveButtonShown st
        /\ stopSolvingButtonShown (stopSolvingAnswered (FailAnswer thrownError) st)
           = stopSolvingButtonShown st
        /\ solvingSpinnerActive (stopSolvingAnswered (FailAnswer thrownError) st)
           = solvingSpinnerActive st).
Proof.
  intros E Hne. split.
  - intros a Ha.
    rewrite (stopSolvingAnswered_callback _ st sid E Hne).
    rewrite (runCallback_stopped _ _ Ha).
    unfold onStopped, refreshSchedule, refreshSolvingButtons,
      notSolvingView, timersConsistent; simpl.
    destruct (autoRefreshIntervalId st) as [i|] eqn:Ei; simpl;
      rewrite E; simpl; rewrite <- app_assoc; simpl.
    + split; [repeat split|].
      split; [|split; [|split; [|reflexivity]]].
      * intros i' Hi' Hin. injection Hi' as <-.
        apply filter_In in Hin. destruct Hin as [_ Hin].
        rewrite Nat.eqb_refl in Hin. discriminate.
      * intros j Hin. apply filter_In in Hin. tauto.
      * intros Hc. rewrite Hc. simpl. now rewrite Nat.eqb_refl.
    + split; [repeat split; assumption|].
      split; [discriminate|].
      split; [tauto|]. split; [tauto|reflexivity].
  - intros e. rewrite (stopSolvingAnswered_callback _ st sid E Hne).
    simpl. repeat split.
Qed.

Lemma stopSolving_outcomes_witness :
  (notSolvingView (stopSolvingAnswered (TextAnswer "stopped") solvingState)
   /\ intervals (stopSolvingAnswered (TextAnswer "stopped") solvingState) = [])
  /\ intervals
       (stopSolvingAnswered (FailAnswer "Internal Server Error") solvingState)
     = [1%nat].
Proof.
  destruct (stopSolving_outcomes solvingState "job-1") as (Hok & Hfail).
  - reflexivity.
  - discriminate.
  - destruct (Hok (TextAnswer "stopped") eq_refl) as (Hv & _ & _ & Hn & _).
    split; [split; [exact Hv|apply Hn; reflexivity]|].
    destruct (Hfail "Internal Server Error") as (_ & _ & Hi & _).
    rewrite Hi. reflexivity.
Defined.

(** C1, as stated, fails: the DELETE of a running job is refused, and the
    stop button, the spinner and the polling timer all stay. *)
Lemma stopSolving_failed_delete_stays_solving :
  scheduleId solvingState = Some "job-1"
  /\ ~ notSolvingView
         (stopSolvingAnswered (FailAnswer "Internal Server Error") solvingState)
  /\ solveButtonShown
       (stopSolvingAnswered (FailAnswer "Internal Server Error") solvingState)
     = false
  /\ intervals
       (stopSolvingAnswered (FailAnswer "Internal Server Error") solvingState)
     = [1%nat].
Proof.
  split; [reflexivity|]. split; [|split; reflexivity].
  intros (H & _). vm_compute in H. discriminate.
Qed.

(** ** Local edits *)

(** C2, as amended: when the loaded schedule has a resources array, after
    [removeResource(r)] no task has [resource == r] and no resource is
    named [r]; the other resources stay in their order, and the tasks are
    the old ones with [resource] set to null where it was [r]. *)
Theorem removeResource_referential_integrity
  (st : State) (sch : Schedule) (rs : list Resource) (r : string) :
  loadedSchedule st = Some sch -> resources sch = Some rs ->
  (forall t, In t (loadedTasks (removeResource r st)) -> resource t <> Some r)
  /\ (forall x, In x (loadedResources (removeResource r st)) -> name x <> r)
  /\ loadedResources (removeResource r st)
     = filter (fun x => negb (String.eqb (name x) r)) rs
  /\ loadedTasks (removeResource r st)
     = map (fun t => if sameName (resource t) r then set_resource None t else t)
           (loadedTasks st).
Proof.
  intros E Er.
  assert (Hres : loadedResources (removeResource r st)
                 = filter (fun x => negb (String.eqb (name x) r)) rs).
  { unfold loadedResources, removeResource. rewrite E, Er.
    rewrite rerender_loadedSchedule. simpl.
    destruct (tasks sch); reflexivity. }
  assert (Htasks : loadedTasks (removeResource r st)
                   = map (fun t => if sameName (resource t) r
                                   then set_resource None t else t)
                         (loadedTasks st)).
  { unfold loadedTasks, removeResource. rewrite E, Er.
    rewrite rerender_loadedSchedule. simpl.
    destruct (tasks sch) eqn:Et; simpl; [reflexivity|].
    now rewrite Et. }
  repeat split; trivial.
  - intros t Hin. rewrite Htasks in Hin. apply in_map_iff in Hin.
    destruct Hin as (t0 & <- & _).
    destruct (resource t0) as [n|] eqn:En; simpl.
    + destruct (String.eqb n r) eqn:Eq; simpl; [discriminate|].
      rewrite En. intros [= ->]. now rewrite String.eqb_refl in Eq.
    + rewrite En. discriminate.
  - intros x Hin. rewrite Hres in Hin. apply filter_In in Hin.
    destruct Hin as (_ & Hx). intros Heq.
    rewrite Heq, String.eqb_refl in Hx. discriminate.
Qed.

Lemma removeResource_referential_integrity_witness :
  loadedResources (removeResource "A" loadedState) = []
  /\ map resource (loadedTasks (removeResource "A" loadedState)) = [None; None].
Proof.
  destruct (removeResource_referential_integrity
              loadedState sampleSchedule [resourceA] "A")
    as (_ & _ & Hr & Ht); [reflexivity | reflexivity |].
  rewrite Hr, Ht. split; reflexivity.
Defined.

(** C2, as stated, fails for a loaded schedule without resources array:
    [removeResource] returns at its guard and the task keeps the name. *)
Lemma removeResource_without_resources_keeps_assignment :
  loadedSchedule withoutResourcesState = Some scheduleWithoutResources
  /\ removeResource "A" withoutResourcesState = withoutResourcesState
  /\ ~ (forall t, In t (loadedTasks (removeResource "A" withoutResourcesState)) ->
         resource t <> Some "A").
Proof.
  split; [reflexivity|]. split; [reflexivity|].
  intros H. apply (H task3); [left|]; reflexivity.
Qed.

(** C4: a resource whose (trimmed) name is the name of a resource of the
    loaded schedule is not added: the handler only shows a warning, and the
    schedule, resources and tasks, is the one before. *)
Theorem addResource_duplicate_rejected
  (st : State) (sch : Schedule) (rs : list Resource) (r : Resource)
  (resourceName resourceCapacity resourceSkills : string) :
  loadedSchedule st = Some sch -> resources sch = Some rs ->
  In r rs -> name r = JS.trim resourceName ->
  loadedSchedule (addResource resourceName resourceCapacity resourceSkills st)
  = Some sch
  /\ exists msg,
      addResource resourceName resourceCapacity resourceSkills st
      = set_notifications
          (notifications st ++ [{| message := msg; type := "warning" |}]) st.
Proof.
  intros E Er Hin Hname. unfold addResource.
  destruct (JS.truthyString (JS.trim resourceName)) eqn:Et; simpl.
  - rewrite E, Er.
    assert (Hdup : existsb (fun x => String.eqb (name x) (JS.trim resourceName)) rs
                   = true).
    { apply existsb_exists. exists r. split; [exact Hin|].
      rewrite Hname. apply String.eqb_refl. }
    rewrite Hdup. split; [exact E|]. eexists. reflexivity.
  - split; [exact E|]. eexists. reflexivity.
Qed.

Lemma addResource_duplicate_rejected_witness :
  loadedSchedule (addResource " A " "80" "x, z" loadedState) = Some sampleSchedule.
Proof.
  apply (addResource_duplicate_rejected
           loadedState sampleSchedule [resourceA] resourceA " A " "80" "x, z");
    [reflexivity | reflexivity | left; reflexivity | reflexivity].
Defined.

(** A new name is added at the end, with the skills in lower case. *)
Example addResource_new_name :
  loadedResources (addResource "B" "" "X, z" loadedState)
  = [resourceA; {| name := "B"; capacity := 100; skills := Some ["x"; "z"] |}].
Proof. reflexivity. Qed.

(** *** Task ids *)

Lemma includes_In x l : JS.includes x l = true <-> In x l.
Proof.
  unfold JS.includes. rewrite existsb_exists. split.
  - intros (y & Hin & Heq). apply String.eqb_eq in Heq. now subst.
  - intros Hin. exists x. split; [exact Hin|apply String.eqb_refl].
Qed.

Lemma natToString_inj a b : JS.natToString a = JS.natToString b -> a = b.
Proof.
  unfold JS.natToString. intros H.
  assert (Hu : Some (Nat.to_uint a) = Some (Nat.to_uint b)).
  { rewrite <- !NilEmpty.usu. now rewrite H. }
  injection Hu as Hu.
  rewrite <- (Unsigned.of_to a), <- (Unsigned.of_to b). now rewrite Hu.
Qed.

Lemma taskId_inj a b : taskId a = taskId b -> a = b.
Proof.
  unfold taskId. simpl. intros [= H]. now apply natToString_inj.
Qed.

(** What the loop returns is the first free counter. *)
Lemma freeCounter_Some fuel : forall c ids k,
  freeCounter fuel c ids = Some k ->
  (c <= k)%nat /\ ~ In (taskId k) ids.
Proof.
  induction fuel as [|f IH]; simpl; intros c ids k H; [discriminate|].
  destruct (JS.includes (taskId c) ids) eqn:E.
  - apply IH in H. destruct H as (Hle & Hni). split; [lia|exact Hni].
  - injection H as <-. split; [lia|].
    intros Hin. apply includes_In in Hin. congruence.
Qed.

(** A loop that used up its fuel has met a collision at every turn. *)
Lemma freeCounter_None fuel : forall c ids,
  freeCounter fuel c ids = None ->
  forall j, In j (seq c fuel) -> In (taskId j) ids.
Proof.
  induction fuel as [|f IH]; simpl; intros c ids H j Hj; [contradiction|].
  destruct (JS.includes (taskId c) ids) eqn:E; [|discriminate].
  destruct Hj as [<- | Hj].
  - now apply includes_In.
  - now apply (IH (S c) ids).
Qed.

(** The loop ends: among one more counter than there are ids, one is free. *)
Lemma freeCounter_terminates c ids :
  exists k, freeCounter (S (List.length ids)) c ids = Some k.
Proof.
  destruct (freeCounter (S (List.length ids)) c ids) as [k|] eqn:E;
    [now exists k|].
  exfalso.
  pose proof (freeCounter_None _ _ _ E) as Hall.
  assert (Hnd : NoDup (map taskId (seq c (S (List.length ids))))).
  { apply NoDup_map_NoDup_ForallPairs; [|apply seq_NoDup].
    intros x y _ _. apply taskId_inj. }
  assert (Hincl : incl (map taskId (seq c (S (List.length ids)))) ids).
  { intros x Hx. apply in_map_iff in Hx. destruct Hx as (j & <- & Hj).
    now apply Hall. }
  pose proof (NoDup_incl_length Hnd Hincl) as Hlen.
  rewrite length_map, length_seq in Hlen. lia.
Qed.

Lemma loadedTasks_rerender msg ty l sch st :
  loadedTasks (rerender msg ty
                 (set_loadedSchedule (Some (set_tasks (Some l) sch)) st)) = l.
Proof.
  unfold loadedTasks. rewrite rerender_loadedSchedule. reflexivity.
Qed.

(** C9: [addTask] returns, and the task it adds has the id [task-{n}] of a
    counter above the number of tasks, an id that no task of the schedule
    has; so ids that were pairwise distinct are pairwise distinct after
    it.  (Without a task name nothing is added.) *)
Theorem addTask_fresh_id (st : State) (taskName_ taskDuration taskSkill : string) :
  NoDup (map id (loadedTasks st)) ->
  exists st',
    addTask taskName_ taskDuration taskSkill st = Some st'
    /\ NoDup (map id (loadedTasks st'))
    /\ (JS.trim taskName_ <> "" ->
        exists counter t,
          (List.length (loadedTasks st) < counter)%nat
          /\ id t = taskId counter
          /\ ~ In (id t) (map id (loadedTasks st))
          /\ loadedTasks st' = (loadedTasks st ++ [t])%list)
    /\ (JS.trim taskName_ = "" -> loadedTasks st' = loadedTasks st).
Proof.
  intros Hnd. unfold addTask.
  destruct (JS.trim taskName_) as [|ch rest] eqn:Et;
    cbn [JS.truthyString negb].
  - eexists. split; [reflexivity|]. split; [exact Hnd|].
    split; [intros H; now elim H|reflexivity].
  - set (sch := match loadedSchedule st with
                | Some sch => sch | None => emptySchedule end).
    set (ts := match tasks sch with Some ts => ts | None => [] end).
    assert (Hts : loadedTasks st = ts).
    { unfold loadedTasks, ts, sch. destruct (loadedSchedule st); reflexivity. }
    destruct (freeCounter_terminates (List.length ts + 1) (map id ts))
      as (k & Hk).
    rewrite length_map in Hk. rewrite Hk.
    apply freeCounter_Some in Hk. destruct Hk as (Hle & Hfresh).
    eexists. split; [reflexivity|].
    rewrite !loadedTasks_rerender, Hts. split; [|split].
    + rewrite map_app. simpl. apply NoDup_app.
      * now rewrite <- Hts.
      * constructor; [intros []|constructor].
      * intros a Ha [<- | []]. now apply Hfresh.
    + intros _. eexists k, _. split; [lia|].
      split; [|split; [|reflexivity]]; [reflexivity|exact Hfresh].
    + discriminate.
Qed.

Lemma addTask_fresh_id_witness :
  exists st',
    addTask "Paint" "20" "X" loadedState = Some st'
    /\ map id (loadedTasks st') = ["t1"; "t2"; "task-3"].
Proof.
  destruct (addTask_fresh_id loadedState "Paint" "20" "X") as (st' & Hst & _).
  - simpl. repeat constructor; simpl; intuition discriminate.
  - exists st'. split; [exact Hst|].
    vm_compute in Hst. injection Hst as <-. reflexivity.
Defined.

(** The counter passes the ids that are taken. *)
Example addTask_passes_collisions :
  option_map (fun st' => map id (loadedTasks st'))
             (addTask "Paint" "" "" collidingState)
  = Some ["task-3"; "task-4"; "task-5"].
Proof. reflexivity. Qed.

(** ** Violation count *)

Lemma sameName_true field v : sameName field v = true <-> field = Some v.
Proof.
  destruct field as [s|]; simpl.
  - rewrite String.eqb_eq. split; [now intros ->|now intros [= ->]].
  - split; discriminate.
Qed.

Lemma truthyString_true s : JS.truthyString s = true <-> s <> "".
Proof.
  destruct s; simpl; split; try discriminate; try reflexivity.
  intros H. now elim H.
Qed.

Lemma fold_left_sum (l : list Task) : forall acc,
  fold_left (fun sum t => sum + duration t) l acc
  = acc + fold_right Z.add 0 (map duration l).
Proof.
  induction l as [|t l IH]; intros acc; simpl; [lia|].
  rewrite IH. lia.
Qed.

(** The sum that [reduce] builds is the sum of the durations. *)
Lemma totalDuration_sum ts n :
  totalDuration ts n
  = fold_right Z.add 0
      (map duration (filter (fun t => sameName (resource t) n) ts)).
Proof. unfold totalDuration. now rewrite fold_left_sum. Qed.

(** When a task adds one to the count. *)
Lemma skillViolation_true rs t :
  skillViolation rs t = true <->
  exists n skill r sk,
    resource t = Some n /\ n <> ""
    /\ requiredSkill t = Some skill /\ skill <> ""
    /\ find (fun x => String.eqb n (name x)) rs = Some r
    /\ skills r = Some sk /\ ~ In skill sk.
Proof.
  split.
  - unfold skillViolation, JS.truthy.
    destruct (resource t) as [n|]; simpl; [|discriminate].
    destruct (requiredSkill t) as [skill|]; simpl;
      [|rewrite andb_false_r; discriminate].
    destruct (JS.truthyString n) eqn:En; simpl; [|discriminate].
    destruct (JS.truthyString skill) eqn:Es; simpl; [|discriminate].
    destruct (find (fun x => String.eqb n (name x)) rs) as [r|] eqn:Ef;
      [|discriminate].
    destruct (skills r) as [sk|] eqn:Esk; [|discriminate].
    intros H. apply negb_true_iff in H.
    exists n, skill, r, sk. apply truthyString_true in En, Es.
    repeat split; trivial.
    intros Hin. apply includes_In in Hin. congruence.
  - intros (n & skill & r & sk & Hr & Hn & Hs & Hsk & Hf & Hl & Hni).
    apply truthyString_true in Hn, Hsk.
    unfold skillViolation, JS.truthy. rewrite Hr, Hs, Hn, Hsk. simpl.
    rewrite Hf, Hl. apply negb_true_iff.
    destruct (JS.includes skill sk) eqn:E; [|reflexivity].
    apply includes_In in E. contradiction.
Qed.

(** C6, as amended: with tasks and resources present, [countViolations]
    is the number of tasks that have a resource that is neither null nor
    empty and a required skill that is not empty, where the first resource
    of that name has a skill list and the list lacks the skill, plus the
    number of resources whose tasks' durations add up to more than the
    capacity; on the example of the specification it is 2. *)
Theorem countViolations_counts
  (schedule : Schedule) (ts : list Task) (rs : list Resource) :
  tasks schedule = Some ts -> resources schedule = Some rs ->
  countViolations schedule
  = (List.length (filter (skillViolation rs) ts)
     + List.length (filter (capacityViolation ts) rs))%nat
  /\ (forall t,
        skillViolation rs t = true <->
        exists n skill r sk,
          resource t = Some n /\ n <> ""
          /\ requiredSkill t = Some skill /\ skill <> ""
          /\ find (fun x => String.eqb n (name x)) rs = Some r
          /\ skills r = Some sk /\ ~ In skill sk)
  /\ (forall r,
        capacityViolation ts r = true <->
        capacity r
        < fold_right Z.add 0
            (map duration
                 (filter (fun t => sameName (resource t) (name r)) ts)))
  /\ countViolations sampleSchedule = 2%nat.
Proof.
  intros Et Er. split; [|split; [|split]].
  - unfold countViolations. now rewrite Et, Er.
  - intros t. apply skillViolation_true.
  - intros r. unfold capacityViolation.
    now rewrite totalDuration_sum, Z.ltb_lt.
  - reflexivity.
Qed.

Lemma countViolations_counts_witness :
  countViolations sampleSchedule
  = (List.length (filter (skillViolation [resourceA]) [task1; task2])
     + List.length (filter (capacityViolation [task1; task2]) [resourceA]))%nat.
Proof.
  apply (countViolations_counts sampleSchedule [task1; task2] [resourceA]);
    reflexivity.
Defined.

(** C6, as stated, fails where a task names a resource by the empty
    string: the name is not null, the resource lacks the skill, and yet
    the script counts nothing. *)
Lemma countViolations_empty_resource_name :
  countViolations unnamedSchedule = 0%nat
  /\ statedViolationCount unnamedSchedule = 1%nat
  /\ countViolations unnamedSchedule <> statedViolationCount unnamedSchedule.
Proof. repeat split. discriminate. Qed.

(** On the example of the specification both counts are 2. *)
Example statedViolationCount_example :
  statedViolationCount sampleSchedule = 2%nat.
Proof. reflexivity. Qed.

(** ** The sort of the analysis *)

Lemma Qltb_lt x y : JS.Qltb x y = true <-> (x < y)%Q.
Proof.
  unfold JS.Qltb. rewrite negb_true_iff. split.
  - intros H. apply Qnot_le_lt. intros Hle.
    apply Qle_bool_iff in Hle. congruence.
  - intros H. destruct (Qle_bool y x) eqn:E; [|reflexivity].
    apply Qle_bool_iff in E. lra.
Qed.

Lemma Qltb_ge x y : JS.Qltb x y = false <-> (y <= x)%Q.
Proof.
  unfold JS.Qltb. rewrite negb_false_iff. apply Qle_bool_iff.
Qed.

Lemma Qle_bool_gt x y : Qle_bool x y = false <-> (y < x)%Q.
Proof.
  split.
  - intros H. apply Qnot_le_lt. intros Hle.
    apply Qle_bool_iff in Hle. congruence.
  - intros H. destruct (Qle_bool x y) eqn:E; [|reflexivity].
    apply Qle_bool_iff in E. lra.
Qed.

Lemma Qeq_bool_false x y : Qeq_bool x y = false <-> ~ (x == y)%Q.
Proof.
  split; [apply Qeq_bool_neq|].
  intros H. destruct (Qeq_bool x y) eqn:E; [|reflexivity].
  apply Qeq_bool_iff in E. contradiction.
Qed.

(** Turns the outcomes of the boolean tests into (in)equalities. *)
Ltac tests_to_props :=
  repeat match goal with
  | H : JS.Qltb _ _ = true |- _ => apply Qltb_lt in H
  | H : JS.Qltb _ _ = false |- _ => apply Qltb_ge in H
  | H : Qle_bool _ _ = true |- _ => apply Qle_bool_iff in H
  | H : Qle_bool _ _ = false |- _ => apply Qle_bool_gt in H
  | H : Qeq_bool _ _ = true |- _ => apply Qeq_bool_iff in H
  | H : Qeq_bool _ _ = false |- _ => apply Qeq_bool_false in H
  end.

(** The comparator answers a positive number exactly where [a] is not
    listed before [b]. *)
Lemma compareConstraints_positive a b :
  JS.Qltb 0 (compareConstraints a b) = true <-> ~ listedBefore a b.
Proof.
  unfold compareConstraints, listedBefore, hardOf, softOf.
  set (ha := hard (getScoreComponents (constraintScore a))).
  set (hb := hard (getScoreComponents (constraintScore b))).
  set (sa := soft (getScoreComponents (constraintScore a))).
  set (sb := soft (getScoreComponents (constraintScore b))).
  rewrite Qltb_lt.
  destruct (JS.Qltb ha 0) eqn:E1, (Qle_bool 0 hb) eqn:E2,
    (Qle_bool 0 ha) eqn:E3, (JS.Qltb hb 0) eqn:E4,
    (Qeq_bool (Qabs ha) (Qabs hb)) eqn:E5; simpl;
    tests_to_props; lra.
Qed.

Lemma listedBefore_or a b : ~ listedBefore a b -> listedBefore b a.
Proof. unfold listedBefore. lra. Qed.

Lemma listedBefore_refl a : listedBefore a a.
Proof. unfold listedBefore. lra. Qed.

Lemma listedBefore_trans a b c :
  listedBefore a b -> listedBefore b c -> listedBefore a c.
Proof. unfold listedBefore. lra. Qed.

Lemma sameKey_listedBefore c x y :
  sameKey c x = true -> sameKey c y = true -> listedBefore x y.
Proof.
  unfold sameKey, listedBefore. intros Hx Hy.
  apply andb_prop in Hx, Hy. destruct Hx as (Hx & Hxs), Hy as (Hy & Hys).
  apply andb_prop in Hx, Hy. destruct Hx as (Hxr & Hxh), Hy as (Hyr & Hyh).
  apply eqb_prop in Hxr, Hyr.
  destruct (JS.Qltb (hardOf c) 0) eqn:Ec; symmetry in Hxr, Hyr;
    tests_to_props; lra.
Qed.

(** *** Facts on [sort] for a comparator that follows an order *)

Section SortFacts.
Context {A : Type} (cmp : A -> A -> Q) (le : A -> A -> Prop).
Hypothesis cmp_stays : forall x y, JS.Qltb 0 (cmp x y) = false -> le x y.
Hypothesis cmp_passes : forall x y, JS.Qltb 0 (cmp x y) = true -> le y x.
Hypothesis le_trans : forall x y z, le x y -> le y z -> le x z.

Lemma insert_Permutation x l : Permutation (x :: l) (JS.insert cmp x l).
Proof.
  induction l as [|y l IH]; simpl; [reflexivity|].
  destruct (JS.Qltb 0 (cmp x y)); [|reflexivity].
  rewrite perm_swap. now apply perm_skip.
Qed.

Lemma sort_Permutation l : Permutation l (JS.sort cmp l).
Proof.
  induction l as [|x l IH]; simpl; [reflexivity|].
  rewrite <- insert_Permutation. now apply perm_skip.
Qed.

Lemma insert_StronglySorted x l :
  StronglySorted le l -> StronglySorted le (JS.insert cmp x l).
Proof.
  induction 1 as [|y l Hs IH Hall]; simpl.
  - constructor; constructor.
  - destruct (JS.Qltb 0 (cmp x y)) eqn:E.
    + constructor; [exact IH|].
      apply (Permutation_Forall (insert_Permutation x l)).
      constructor; [now apply cmp_passes|exact Hall].
    + constructor; [now constructor|].
      constructor; [now apply cmp_stays|].
      apply (Forall_impl _ (fun z Hz => le_trans x y z (cmp_stays _ _ E) Hz)).
      exact Hall.
Qed.

Lemma sort_StronglySorted l : StronglySorted le (JS.sort cmp l).
Proof.
  induction l as [|x l IH]; simpl; [constructor|].
  now apply insert_StronglySorted.
Qed.

(** Elements that tie keep their order: [p] picks elements of which none
    passes another one. *)
Lemma insert_filter (p : A -> bool) x l :
  (forall y, p x = true -> p y = true -> JS.Qltb 0 (cmp x y) = false) ->
  filter p (JS.insert cmp x l) = filter p (x :: l).
Proof.
  intros Hp. induction l as [|y l IH]; [reflexivity|].
  simpl. destruct (JS.Qltb 0 (cmp x y)) eqn:E; [|reflexivity].
  simpl. rewrite IH. simpl.
  destruct (p x) eqn:Ex, (p y) eqn:Ey; try reflexivity.
  specialize (Hp y eq_refl Ey). congruence.
Qed.

Lemma sort_filter (p : A -> bool) l :
  (forall x y, p x = true -> p y = true -> JS.Qltb 0 (cmp x y) = false) ->
  filter p (JS.sort cmp l) = filter p l.
Proof.
  intros Hp. induction l as [|x l IH]; [reflexivity|].
  simpl JS.sort. rewrite insert_filter by (intros y; apply Hp).
  simpl. now rewrite IH.
Qed.

End SortFacts.

Lemma sameKey_true x y :
  sameKey x y = true <-> listedBefore x y /\ listedBefore y x.
Proof.
  unfold sameKey, listedBefore. split.
  - intros H. apply andb_prop in H. destruct H as (H & Hs).
    apply andb_prop in H. destruct H as (Hr & Hh). apply eqb_prop in Hr.
    destruct (JS.Qltb (hardOf x) 0) eqn:Ex; symmetry in Hr;
      tests_to_props; lra.
  - intros H. rewrite !andb_true_iff, !Qeq_bool_iff. repeat split.
    + destruct (JS.Qltb (hardOf x) 0) eqn:Ex, (JS.Qltb (hardOf y) 0) eqn:Ey;
        try reflexivity; tests_to_props; lra.
    + lra.
    + lra.
Qed.

Lemma filter_head_eq {A : Type} (p : A -> bool) x y l1 l2 :
  p x = true -> p y = true ->
  filter p (x :: l1) = filter p (y :: l2) -> x = y.
Proof. simpl. intros -> ->. now intros [= ->]. Qed.

(** The three properties of the listed order leave no choice: whatever
    stable sort the browser runs, this is the list it shows. *)
Lemma listed_order_determined (l1 : list Constraint) : forall l2,
  Permutation l1 l2 ->
  StronglySorted listedBefore l1 -> StronglySorted listedBefore l2 ->
  (forall c, filter (sameKey c) l1 = filter (sameKey c) l2) ->
  l1 = l2.
Proof.
  induction l1 as [|x r1 IH]; intros l2 Hp Hs1 Hs2 Hf.
  - now apply Permutation_nil in Hp.
  - destruct l2 as [|y r2];
      [apply Permutation_sym, Permutation_nil in Hp; discriminate|].
    inversion Hs1 as [|? ? Hs1' Hx]; subst.
    inversion Hs2 as [|? ? Hs2' Hy]; subst.
    assert (Hxx : sameKey x x = true)
      by (apply sameKey_true; split; apply listedBefore_refl).
    assert (Hxy : sameKey x y = true).
    { apply sameKey_true. split.
      - assert (Hin : In y (x :: r1))
          by (apply (Permutation_in _ (Permutation_sym Hp)); now left).
        destruct Hin as [<- | Hin]; [now apply sameKey_true in Hxx|].
        rewrite Forall_forall in Hx. now apply Hx.
      - assert (Hin : In x (y :: r2))
          by (apply (Permutation_in _ Hp); now left).
        destruct Hin as [<- | Hin]; [now apply sameKey_true in Hxx|].
        rewrite Forall_forall in Hy. now apply Hy. }
    pose proof (filter_head_eq _ _ _ _ _ Hxx Hxy (Hf x)) as <-.
    f_equal. apply IH; trivial.
    + now apply Permutation_cons_inv in Hp.
    + intros c. specialize (Hf c). simpl in Hf.
      destruct (sameKey c x); [now injection Hf|exact Hf].
Qed.

Lemma sortConstraints_sorted constraints :
  StronglySorted listedBefore (sortConstraints constraints).
Proof.
  apply sort_StronglySorted.
  - intros x y H. destruct (compareConstraints_positive x y) as (_ & Hn).
    assert (Hd : ~ ~ listedBefore x y)
      by (intros Hc; apply Hn in Hc; congruence).
    unfold listedBefore in *. lra.
  - intros x y H. apply compareConstraints_positive in H.
    now apply listedBefore_or.
  - apply listedBefore_trans.
Qed.

Lemma sortConstraints_stable constraints c :
  filter (sameKey c) (sortConstraints constraints)
  = filter (sameKey c) constraints.
Proof.
  apply sort_filter. intros x y Hx Hy.
  pose proof (sameKey_listedBefore c x y Hx Hy) as Hb.
  destruct (JS.Qltb 0 (compareConstraints x y)) eqn:E; [|reflexivity].
  apply compareConstraints_positive in E. contradiction.
Qed.

(** C5, as amended: the listed constraints are the given ones, ordered
    (a) negative hard component first, (b) on each side by descending
    magnitude of the hard component, (c) then by descending magnitude of
    the soft component, and constraints that tie in all three keep the
    order in which the server sent them; the example of the specification
    comes out as Skill, Cap, Bal. *)
Theorem sortConstraints_order (constraints : list Constraint) :
  Permutation constraints (sortConstraints constraints)
  /\ StronglySorted listedBefore (sortConstraints constraints)
  /\ (forall c, filter (sameKey c) (sortConstraints constraints)
                = filter (sameKey c) constraints)
  /\ map constraintName (sortConstraints exampleConstraints)
     = ["Skill"; "Cap"; "Bal"].
Proof.
  split; [|split; [|split]].
  - apply sort_Permutation.
  - apply sortConstraints_sorted.
  - intros c. apply sortConstraints_stable.
  - reflexivity.
Qed.

(** C5, as stated, fails in its part (c): of two constraints without
    negative hard component the one with the larger hard magnitude comes
    first, whatever the soft components are. *)
Lemma sortConstraints_reward_first :
  map constraintName (sortConstraints rewardConstraints) = ["Bonus"; "Bal"]
  /\ map constraintName (statedOrder rewardConstraints) = ["Bal"; "Bonus"]
  /\ sortConstraints rewardConstraints <> statedOrder rewardConstraints.
Proof. repeat split. discriminate. Qed.

(** The tie of two violated hard constraints is broken by the soft
    component before the order of arrival. *)
Example sortConstraints_hard_tie :
  map constraintName (sortConstraints tiedHardConstraints) = ["Skill"; "Cap"]
  /\ map constraintName (statedOrder tiedHardConstraints) = ["Cap"; "Skill"].
Proof. split; reflexivity. Qed.

(** On the example of the specification the two orders agree. *)
Example statedOrder_example :
  map constraintName (statedOrder exampleConstraints) = ["Skill"; "Cap"; "Bal"].
Proof. reflexivity. Qed.

(** Every list with the three properties of the theorem is the list that
    [sortConstraints] returns. *)
Corollary sortConstraints_determined (constraints listed : list Constraint) :
  Permutation constraints listed ->
  StronglySorted listedBefore listed ->
  (forall c, filter (sameKey c) listed = filter (sameKey c) constraints) ->
  listed = sortConstraints constraints.
Proof.
  intros Hp Hs Hf.
  apply listed_order_determined.
  - rewrite <- Hp. apply sort_Permutation.
  - exact Hs.
  - apply sortConstraints_sorted.
  - intros c. now rewrite Hf, sortConstraints_stable.
Qed.

(** * Further properties *)

(** ** The polling timer *)

Lemma refreshSolvingButtons_timers b st :
  timersConsistent st -> timersConsistent (refreshSolvingButtons b st).
Proof.
  unfold timersConsistent, refreshSolvingButtons. intros H.
  destruct b; simpl; destruct (autoRefreshIntervalId st) as [i|] eqn:E; simpl.
  - now rewrite E.
  - now rewrite H.
  - rewrite H. simpl. now rewrite Nat.eqb_refl.
  - now rewrite E.
Qed.

Lemma renderSchedule_timers sch st :
  timersConsistent st -> timersConsistent (fst (renderSchedule sch st)).
Proof.
  intros H. destruct sch as [sch|]; simpl; [|exact H].
  apply (refreshSolvingButtons_timers (isSolving sch) st H).
Qed.

Lemma rerender_timers msg ty st :
  timersConsistent st -> timersConsistent (rerender msg ty st).
Proof.
  intros H. unfold rerender.
  pose proof (renderSchedule_timers (loadedSchedule st) st H) as Hr.
  destruct (renderSchedule (loadedSchedule st) st) as [st' thrown].
  destruct thrown; exact Hr.
Qed.

Lemma refreshSchedule_timers st :
  timersConsistent st -> timersConsistent (refreshSchedule st).
Proof.
  unfold refreshSchedule. intros H.
  destruct (scheduleId st); [exact H|].
  destruct (demoDataId st); exact H.
Qed.

Lemma onStopped_timers st :
  timersConsistent st -> timersConsistent (onStopped st).
Proof.
  intros H. unfold onStopped.
  apply (refreshSchedule_timers _ (refreshSolvingButtons_timers false st H)).
Qed.

Lemma runCallback_timers k a st :
  timersConsistent st -> timersConsistent (runCallback k a st).
Proof.
  intros H. destruct k, a; simpl; trivial.
  - unfold onSchedule. apply renderSchedule_timers. exact H.
  - unfold onScheduleFailed. apply refreshSolvingButtons_timers. exact H.
  - unfold onSolveStarted.
    apply (refreshSolvingButtons_timers true
             (set_scheduleId (Some data) st) H).
  - unfold onSolveFailed. apply refreshSolvingButtons_timers. exact H.
  - now apply onStopped_timers.
  - now apply onStopped_timers.
  - now apply onStopped_timers.
Qed.

Lemma handle_timers e st :
  timersConsistent st -> timersConsistent (handle e st).
Proof.
  intros H. destruct e; simpl.
  - unfold solve. destruct (loadedSchedule st); exact H.
  - unfold stopSolving. destruct (scheduleId st) as [sid|]; [|exact H].
    destruct (negb (JS.truthyString sid)); exact H.
  - apply (refreshSchedule_timers
             (set_demoDataId (Some item) (set_scheduleId None st)) H).
  - exact H.
  - unfold addResource.
    destruct (negb (JS.truthyString (JS.trim resourceName))); [exact H|].
    match goal with |- context [if ?c then _ else _] => destruct c end;
      [exact H|].
    apply rerender_timers. exact H.
  - unfold removeResource. destruct (loadedSchedule st) as [sch|]; [|exact H].
    destruct (resources sch); [|exact H].
    apply rerender_timers. exact H.
  - unfold addTask.
    destruct (negb (JS.truthyString (JS.trim taskName_))); [exact H|].
    match goal with |- context [freeCounter ?f ?c ?l] =>
      destruct (freeCounter f c l) end; [|exact H].
    apply rerender_timers. exact H.
  - unfold removeTask. destruct (loadedSchedule st) as [sch|]; [|exact H].
    destruct (tasks sch); [|exact H].
    apply rerender_timers. exact H.
  - unfold deliver. destruct (nth_error (pending st) i) as [[r k]|]; [|exact H].
    apply runCallback_timers. exact H.
  - unfold tick. destruct (existsb (Nat.eqb i) (intervals st)); [|exact H].
    now apply refreshSchedule_timers.
Qed.

(** X1: whatever the user does and whatever arrives, the polling handle
    and the running timers agree: at most one polling timer runs, it is
    the one the handle names, and none runs while the handle is null. *)
Theorem run_keeps_one_timer (events : list Event) (st : State) :
  timersConsistent st -> timersConsistent (run events st).
Proof.
  revert st. induction events as [|e events IH]; intros st H; [exact H|].
  simpl. apply IH. now apply handle_timers.
Qed.

Lemma run_keeps_one_timer_witness :
  intervals
    (run [ClickSolve; Arrives 0 (TextAnswer "job-2"); Ticks 1] solvingState)
  = [1%nat].
Proof.
  pose proof (run_keeps_one_timer
    [ClickSolve; Arrives 0 (TextAnswer "job-2"); Ticks 1] solvingState) as H.
  vm_compute in H. vm_compute. apply H. reflexivity.
Defined.

(** ** Fetching the schedule *)

Lemma deliver_ajax r k a st :
  deliver (List.length (pending st)) a (ajax r k st)
  = runCallback k a (set_requests (pending st) (sent st ++ [r]) st).
Proof.
  unfold deliver, ajax; simpl.
  now rewrite nth_error_last, removeNth_last.
Qed.

Lemma tick_running i sid st :
  In i (intervals st) -> scheduleId st = Some sid ->
  tick i st
  = ajax {| method := GET; url := "/schedules/" ++ sid; body := NoBody |}
         OnSchedule st.
Proof.
  intros Hin E. unfold tick, refreshSchedule.
  assert (Hex : existsb (Nat.eqb i) (intervals st) = true).
  { apply existsb_exists. exists i. split; [exact Hin|apply Nat.eqb_refl]. }
  now rewrite Hex, E.
Qed.

(** X2: a poll of a running job that is answered with a schedule replaces
    the loaded schedule by the answer as a whole and shows its four KPIs
    (tasks, assigned tasks, violations, score).  If the status of the
    answer is null or NOT_SOLVING the page leaves the solving state: the
    handle is null, and when handle and timers agreed no timer runs, so
    that no later tick sends a request.  For any other status the page
    stays in the solving state: the stop button and the spinner are on,
    and the one timer of the poll keeps running under the same handle. *)
Theorem poll_answer_replaces_schedule
  (i : nat) (sid : string) (sch : Schedule) (st : State) :
  In i (intervals st) -> scheduleId st = Some sid ->
  loadedSchedule (pollAnswered i (ScheduleAnswer (Some sch)) st) = Some sch
  /\ sent (pollAnswered i (ScheduleAnswer (Some sch)) st)
     = (sent st
        ++ [{| method := GET; url := "/schedules/" ++ sid; body := NoBody |}])%list
  /\ pending (pollAnswered i (ScheduleAnswer (Some sch)) st) = pending st
  /\ kpiTotalTasks (pollAnswered i (ScheduleAnswer (Some sch)) st)
     = JS.natToString
         (match tasks sch with Some ts => List.length ts | None => 0%nat end)
  /\ kpiAssigned (pollAnswered i (ScheduleAnswer (Some sch)) st)
     = JS.natToString
         (match tasks sch with
          | Some ts => List.length (filter isAssigned ts)
          | None => 0%nat
          end)
  /\ kpiViolations (pollAnswered i (ScheduleAnswer (Some sch)) st)
     = JS.natToString (countViolations sch)
  /\ kpiScore (pollAnswered i (ScheduleAnswer (Some sch)) st)
     = formatScore (scoreOr (score sch) (ScoreString "?"))
  /\ (isSolving sch = false ->
      notSolvingView (pollAnswered i (ScheduleAnswer (Some sch)) st)
      /\ (timersConsistent st ->
          intervals (pollAnswered i (ScheduleAnswer (Some sch)) st) = []
          /\ forall j, tick j (pollAnswered i (ScheduleAnswer (Some sch)) st)
                       = pollAnswered i (ScheduleAnswer (Some sch)) st))
  /\ (isSolving sch = true ->
      solveButtonShown (pollAnswered i (ScheduleAnswer (Some sch)) st) = false
      /\ stopSolvingButtonShown (pollAnswered i (ScheduleAnswer (Some sch)) st)
         = true
      /\ solvingSpinnerActive (pollAnswered i (ScheduleAnswer (Some sch)) st)
         = true
      /\ autoRefreshIntervalId (pollAnswered i (ScheduleAnswer (Some sch)) st)
         <> None
      /\ (timersConsistent st ->
          autoRefreshIntervalId (pollAnswered i (ScheduleAnswer (Some sch)) st)
          = Some i
          /\ intervals (pollAnswered i (ScheduleAnswer (Some sch)) st) = [i])).
Proof.
  intros Hin E. unfold pollAnswered.
  rewrite (tick_running i sid st Hin E), deliver_ajax.
  split; [|split; [|split; [|split; [|split; [|split; [|split; [|split]]]]]]];
    try (unfold runCallback, onSchedule, renderSchedule, refreshSolvingButtons;
         simpl;
         destruct (isSolving sch), (autoRefreshIntervalId st); reflexivity).
  - intros Hs.
    assert (Hi : timersConsistent st ->
                 intervals
                   (runCallback OnSchedule (ScheduleAnswer (Some sch))
                      (set_requests (pending st)
                         (sent st ++ [{| method := GET;
                                         url := "/schedules/" ++ sid;
                                         body := NoBody |}]) st)) = []).
    { intros Hc. unfold timersConsistent in Hc.
      unfold runCallback, onSchedule, renderSchedule, refreshSolvingButtons;
        simpl.
      rewrite Hs.
      destruct (autoRefreshIntervalId st) as [j|]; simpl; rewrite Hc; simpl;
        [now rewrite Nat.eqb_refl|reflexivity]. }
    split.
    + unfold runCallback, onSchedule, renderSchedule, refreshSolvingButtons,
        notSolvingView; simpl.
      rewrite Hs.
      destruct (autoRefreshIntervalId st) eqn:Ej; simpl; repeat split; trivial.
    + intros Hc. split; [exact (Hi Hc)|].
      intros j. unfold tick at 1. now rewrite (Hi Hc).
  - intros Hs.
    unfold runCallback, onSchedule, renderSchedule, refreshSolvingButtons;
      simpl.
    rewrite Hs.
    destruct (autoRefreshIntervalId st) as [j|] eqn:Ej; simpl.
    + do 3 (split; [reflexivity|]). split; [congruence|].
      intros Hc. unfold timersConsistent in Hc. rewrite Ej in Hc.
      rewrite Hc in Hin. destruct Hin as [Hin|[]].
      rewrite Ej, Hc, Hin. split; reflexivity.
    + do 3 (split; [reflexivity|]). split; [discriminate|].
      intros Hc. unfold timersConsistent in Hc. rewrite Ej in Hc.
      rewrite Hc in Hin. destruct Hin.
Qed.

Lemma poll_answer_replaces_schedule_witness :
  (loadedSchedule
     (pollAnswered 1 (ScheduleAnswer (Some collidingSchedule)) solvingState)
   = Some collidingSchedule
   /\ kpiTotalTasks
        (pollAnswered 1 (ScheduleAnswer (Some collidingSchedule)) solvingState)
      = "2"
   /\ intervals
        (pollAnswered 1 (ScheduleAnswer (Some collidingSchedule)) solvingState)
      = [])
  /\ intervals
       (pollAnswered 1 (ScheduleAnswer (Some runningSchedule)) solvingState)
     = [1%nat].
Proof.
  split.
  - destruct (poll_answer_replaces_schedule 1 "job-1" collidingSchedule
                solvingState) as (Hl & _ & _ & Ht & _ & _ & _ & Hidle & _).
    + left. reflexivity.
    + reflexivity.
    + split; [exact Hl|]. split; [rewrite Ht; reflexivity|].
      destruct (Hidle eq_refl) as (_ & Hi).
      destruct (Hi eq_refl) as (Hi' & _). exact Hi'.
  - destruct (poll_answer_replaces_schedule 1 "job-1" runningSchedule
                solvingState) as (_ & _ & _ & _ & _ & _ & _ & _ & Hrun).
    + left. reflexivity.
    + reflexivity.
    + destruct (Hrun eq_refl) as (_ & _ & _ & _ & Hi).
      destruct (Hi eq_refl) as (_ & Hi'). exact Hi'.
Defined.

(** X3: a poll that fails leaves the loaded schedule as it is, shows a
    danger toast and ends the polling: the timer is cleared, so that no
    later tick sends another request. *)
Theorem poll_failure_ends_polling
  (i : nat) (sid thrownError : string) (st : State) :
  timersConsistent st -> In i (intervals st) -> scheduleId st = Some sid ->
  loadedSchedule (pollAnswered i (FailAnswer thrownError) st)
  = loadedSchedule st
  /\ notifications (pollAnswered i (FailAnswer thrownError) st)
     = (notifications st
        ++ [{| message := "Failed to load schedule data."; type := "danger" |}])%list
  /\ notSolvingView (pollAnswered i (FailAnswer thrownError) st)
  /\ intervals (pollAnswered i (FailAnswer thrownError) st) = []
  /\ (forall j, tick j (pollAnswered i (FailAnswer thrownError) st)
                = pollAnswered i (FailAnswer thrownError) st).
Proof.
  intros Hc Hin E. unfold pollAnswered.
  rewrite (tick_running i sid st Hin E), deliver_ajax.
  assert (Hi : intervals
                 (runCallback OnSchedule (FailAnswer thrownError)
                    (set_requests (pending st)
                       (sent st ++ [{| method := GET;
                                       url := "/schedules/" ++ sid;
                                       body := NoBody |}]) st)) = []).
  { unfold runCallback, onScheduleFailed, refreshSolvingButtons; simpl.
    unfold timersConsistent in Hc.
    destruct (autoRefreshIntervalId st) as [j|]; simpl; rewrite Hc; simpl;
      [now rewrite Nat.eqb_refl|reflexivity]. }
  split; [|split; [|split; [|split]]].
  - unfold runCallback, onScheduleFailed, refreshSolvingButtons; simpl.
    destruct (autoRefreshIntervalId st); reflexivity.
  - unfold runCallback, onScheduleFailed, refreshSolvingButtons; simpl.
    destruct (autoRefreshIntervalId st); reflexivity.
  - unfold runCallback, onScheduleFailed, refreshSolvingButtons,
      notSolvingView; simpl.
    destruct (autoRefreshIntervalId st) eqn:Ej; simpl; repeat split; trivial.
  - exact Hi.
  - intros j. unfold tick at 1. now rewrite Hi.
Qed.

Lemma poll_failure_ends_polling_witness :
  intervals (pollAnswered 1 (FailAnswer "timeout") solvingState) = []
  /\ loadedSchedule (pollAnswered 1 (FailAnswer "timeout") solvingState)
     = Some sampleSchedule.
Proof.
  destruct (poll_failure_ends_polling 1 "job-1" "timeout" solvingState)
    as (Hl & _ & _ & Hi & _).
  - reflexivity.
  - left. reflexivity.
  - reflexivity.
  - split; [exact Hi|]. rewrite Hl. reflexivity.
Defined.

(** X4: choosing a dataset forgets the job id without telling the server:
    the only request is the GET of the dataset, no DELETE leaves.  When
    the dataset arrives it becomes the loaded schedule, and the page is
    idle if its status is null or NOT_SOLVING. *)
Theorem selectDataset_abandons_job
  (item : string) (sch : Schedule) (st : State) :
  scheduleId (datasetAnswered item (ScheduleAnswer (Some sch)) st) = None
  /\ demoDataId (datasetAnswered item (ScheduleAnswer (Some sch)) st)
     = Some item
  /\ loadedSchedule (datasetAnswered item (ScheduleAnswer (Some sch)) st)
     = Some sch
  /\ sent (datasetAnswered item (ScheduleAnswer (Some sch)) st)
     = (sent st
        ++ [{| method := GET; url := "/demo-data/" ++ item; body := NoBody |}])%list
  /\ (isSolving sch = false ->
      notSolvingView (datasetAnswered item (ScheduleAnswer (Some sch)) st)).
Proof.
  unfold datasetAnswered, selectDataset, refreshSchedule. simpl.
  rewrite (deliver_ajax _ OnSchedule _
             (set_demoDataId (Some item) (set_scheduleId None st))).
  unfold runCallback, onSchedule, renderSchedule, refreshSolvingButtons,
    notSolvingView; simpl.
  destruct (isSolving sch), (autoRefreshIntervalId st) as [j|] eqn:Ej; simpl;
    repeat split; try discriminate; trivial.
Qed.

Lemma selectDataset_abandons_job_witness :
  sent (datasetAnswered "LARGE" (ScheduleAnswer (Some sampleSchedule)) solvingState)
  = (sent solvingState
     ++ [{| method := GET; url := "/demo-data/LARGE"; body := NoBody |}])%list
  /\ notSolvingView
       (datasetAnswered "LARGE" (ScheduleAnswer (Some sampleSchedule)) solvingState).
Proof.
  destruct (selectDataset_abandons_job "LARGE" sampleSchedule solvingState)
    as (_ & _ & _ & Hs & Hv).
  split; [exact Hs|]. apply Hv. reflexivity.
Defined.

(** ** From solve to stop *)

(** X5: a solve that is answered with a job id, followed by a stop that
    succeeds (whatever the body of its answer), sends POST /schedules (the
    loaded schedule and the weights), DELETE /schedules/{id} and the final
    GET /schedules/{id}, in this order.  In between the page polls: when
    handle and timers agreed before, exactly one timer runs, the handle
    names it, and its tick fetches the job.  At the end the page is idle,
    no timer runs and no tick sends a request, and the schedule on the
    page is untouched until the final fetch arrives. *)
Theorem solve_then_stop
  (st : State) (sch : Schedule) (jobId : string) (a : Answer) :
  loadedSchedule st = Some sch -> jobId <> "" -> succeeded a = true ->
  (scheduleId (solveAnswered (TextAnswer jobId) st) = Some jobId
   /\ stopSolvingButtonShown (solveAnswered (TextAnswer jobId) st) = true
   /\ autoRefreshIntervalId (solveAnswered (TextAnswer jobId) st) <> None
   /\ (timersConsistent st ->
       exists i,
         autoRefreshIntervalId (solveAnswered (TextAnswer jobId) st) = Some i
         /\ intervals (solveAnswered (TextAnswer jobId) st) = [i]
         /\ sent (tick i (solveAnswered (TextAnswer jobId) st))
            = (sent (solveAnswered (TextAnswer jobId) st)
               ++ [{| method := GET; url := "/schedules/" ++ jobId;
                      body := NoBody |}])%list))
  /\ sent (stopSolvingAnswered a (solveAnswered (TextAnswer jobId) st))
     = (sent st
        ++ [{| method := POST; url := "/schedules";
               body := SolveBody sch (getConstraintWeights st) |};
            {| method := DELETE; url := "/schedules/" ++ jobId; body := NoBody |};
            {| method := GET; url := "/schedules/" ++ jobId; body := NoBody |}])%list
  /\ notSolvingView (stopSolvingAnswered a (solveAnswered (TextAnswer jobId) st))
  /\ (timersConsistent st ->
      intervals (stopSolvingAnswered a (solveAnswered (TextAnswer jobId) st))
      = []
      /\ forall j,
           tick j (stopSolvingAnswered a (solveAnswered (TextAnswer jobId) st))
           = stopSolvingAnswered a (solveAnswered (TextAnswer jobId) st))
  /\ loadedSchedule
       (stopSolvingAnswered a (solveAnswered (TextAnswer jobId) st))
     = Some sch.
Proof.
  intros E Hne Ha.
  assert (Hs : solveAnswered (TextAnswer jobId) st
               = onSolveStarted jobId
                   (set_requests (pending st)
                      (sent st ++ [{| method := POST; url := "/schedules";
                                      body := SolveBody sch
                                                (getConstraintWeights st) |}])
                      st)).
  { unfold solveAnswered, solve. rewrite E. now rewrite deliver_ajax. }
  assert (Hid : scheduleId (solveAnswered (TextAnswer jobId) st) = Some jobId).
  { rewrite Hs. unfold onSolveStarted, refreshSolvingButtons; simpl.
    destruct (autoRefreshIntervalId st); reflexivity. }
  assert (Hend : timersConsistent st ->
                 intervals (stopSolvingAnswered a
                              (solveAnswered (TextAnswer jobId) st)) = []).
  { intros Hc. unfold timersConsistent in Hc.
    rewrite (stopSolvingAnswered_callback _ _ jobId Hid Hne).
    rewrite (runCallback_stopped _ _ Ha). rewrite Hs.
    unfold onStopped, refreshSchedule, onSolveStarted, refreshSolvingButtons;
      simpl.
    destruct (autoRefreshIntervalId st) eqn:Ei; simpl;
      rewrite ?Ei; simpl; rewrite Hc; simpl; now rewrite Nat.eqb_refl. }
  split; [split; [exact Hid|split; [|split]]|split; [|split; [|split]]].
  - rewrite Hs. unfold onSolveStarted, refreshSolvingButtons; simpl.
    destruct (autoRefreshIntervalId st); reflexivity.
  - rewrite Hs. unfold onSolveStarted, refreshSolvingButtons; simpl.
    destruct (autoRefreshIntervalId st) eqn:Ei; simpl; congruence.
  - intros Hc. unfold timersConsistent in Hc.
    assert (Hrun : exists i,
               autoRefreshIntervalId (solveAnswered (TextAnswer jobId) st)
               = Some i
               /\ intervals (solveAnswered (TextAnswer jobId) st) = [i]).
    { rewrite Hs. unfold onSolveStarted, refreshSolvingButtons; simpl.
      destruct (autoRefreshIntervalId st) as [j|] eqn:Ei; simpl.
      - exists j. rewrite Ei, Hc. split; reflexivity.
      - exists (nextIntervalId st). rewrite Hc. split; reflexivity. }
    destruct Hrun as (i & Hh & Hi). exists i.
    split; [exact Hh|]. split; [exact Hi|].
    rewrite (tick_running i jobId _); [reflexivity| |exact Hid].
    rewrite Hi. now left.
  - rewrite (stopSolvingAnswered_callback _ _ jobId Hid Hne).
    rewrite (runCallback_stopped _ _ Ha). rewrite Hs.
    unfold onStopped, refreshSchedule, onSolveStarted, refreshSolvingButtons;
      simpl.
    destruct (autoRefreshIntervalId st) eqn:Ei; simpl;
      rewrite ?Ei; simpl; rewrite <- !app_assoc; reflexivity.
  - rewrite (stopSolvingAnswered_callback _ _ jobId Hid Hne).
    rewrite (runCallback_stopped _ _ Ha). rewrite Hs.
    unfold onStopped, refreshSchedule, onSolveStarted, refreshSolvingButtons,
      notSolvingView; simpl.
    destruct (autoRefreshIntervalId st) eqn:Ei; simpl;
      rewrite ?Ei; simpl; repeat split; trivial.
  - intros Hc. split; [exact (Hend Hc)|].
    intros j. unfold tick at 1. now rewrite (Hend Hc).
  - rewrite (stopSolvingAnswered_callback _ _ jobId Hid Hne).
    rewrite (runCallback_stopped _ _ Ha). rewrite Hs.
    unfold onStopped, refreshSchedule, onSolveStarted, refreshSolvingButtons;
      simpl.
    destruct (autoRefreshIntervalId st) eqn:Ei; simpl;
      rewrite ?Ei; simpl; exact E.
Qed.

Lemma solve_then_stop_witness :
  intervals (solveAnswered (TextAnswer "job-7") loadedState) = [1%nat]
  /\ notSolvingView
       (stopSolvingAnswered (ScheduleAnswer (Some sampleSchedule))
          (solveAnswered (TextAnswer "job-7") loadedState))
  /\ intervals
       (stopSolvingAnswered (ScheduleAnswer (Some sampleSchedule))
          (solveAnswered (TextAnswer "job-7") loadedState)) = []
  /\ List.length
       (sent (stopSolvingAnswered (ScheduleAnswer (Some sampleSchedule))
                (solveAnswered (TextAnswer "job-7") loadedState))) = 4%nat.
Proof.
  destruct (solve_then_stop loadedState sampleSchedule "job-7"
              (ScheduleAnswer (Some sampleSchedule)))
    as ((_ & _ & _ & Hrun) & Hs & Hv & Hi & _);
    [reflexivity | discriminate | reflexivity |].
  split.
  - destruct (Hrun eq_refl) as (i & Hh & Hint & _).
    rewrite Hint. f_equal.
    assert (Hone : Some i = Some 1%nat) by (rewrite <- Hh; reflexivity).
    now injection Hone.
  - split; [exact Hv|]. split; [exact (proj1 (Hi eq_refl))|].
    rewrite Hs. reflexivity.
Defined.

(** X6: a solve that the server refuses leaves job id and schedule as they
    were, reports the error text in a danger toast and shows the idle
    page; its request is the only one sent and nothing waits for an
    answer.  No polling is left: the handle is null, and when handle and
    timers agreed before, no timer runs and no tick sends a request. *)
Theorem solve_failure_rolls_back
  (st : State) (sch : Schedule) (thrownError : string) :
  loadedSchedule st = Some sch ->
  scheduleId (solveAnswered (FailAnswer thrownError) st) = scheduleId st
  /\ loadedSchedule (solveAnswered (FailAnswer thrownError) st) = Some sch
  /\ notifications (solveAnswered (FailAnswer thrownError) st)
     = (notifications st
        ++ [{| message := "Failed to start solving: " ++ thrownError;
               type := "danger" |}])%list
  /\ notSolvingView (solveAnswered (FailAnswer thrownError) st)
  /\ pending (solveAnswered (FailAnswer thrownError) st) = pending st
  /\ sent (solveAnswered (FailAnswer thrownError) st)
     = (sent st
        ++ [{| method := POST; url := "/schedules";
               body := SolveBody sch (getConstraintWeights st) |}])%list
  /\ (timersConsistent st ->
      intervals (solveAnswered (FailAnswer thrownError) st) = []
      /\ forall j, tick j (solveAnswered (FailAnswer thrownError) st)
                   = solveAnswered (FailAnswer thrownError) st).
Proof.
  intros E. unfold solveAnswered, solve. rewrite E, deliver_ajax.
  assert (Hi : timersConsistent st ->
               intervals
                 (runCallback OnSolveStarted (FailAnswer thrownError)
                    (set_requests (pending st)
                       (sent st ++ [{| method := POST; url := "/schedules";
                                       body := SolveBody sch
                                                 (getConstraintWeights st) |}])
                       st)) = []).
  { intros Hc. unfold timersConsistent in Hc.
    unfold runCallback, onSolveFailed, refreshSolvingButtons; simpl.
    destruct (autoRefreshIntervalId st) as [j|]; simpl; rewrite Hc; simpl;
      [now rewrite Nat.eqb_refl|reflexivity]. }
  split; [|split; [|split; [|split; [|split; [|split]]]]].
  - unfold runCallback, onSolveFailed, refreshSolvingButtons; simpl.
    destruct (autoRefreshIntervalId st); reflexivity.
  - unfold runCallback, onSolveFailed, refreshSolvingButtons; simpl.
    destruct (autoRefreshIntervalId st); exact E.
  - unfold runCallback, onSolveFailed, refreshSolvingButtons; simpl.
    destruct (autoRefreshIntervalId st); reflexivity.
  - unfold runCallback, onSolveFailed, refreshSolvingButtons, notSolvingView;
      simpl.
    destruct (autoRefreshIntervalId st) eqn:Ei; simpl; repeat split; trivial.
  - unfold runCallback, onSolveFailed, refreshSolvingButtons; simpl.
    destruct (autoRefreshIntervalId st); reflexivity.
  - unfold runCallback, onSolveFailed, refreshSolvingButtons; simpl.
    destruct (autoRefreshIntervalId st); reflexivity.
  - intros Hc. split; [exact (Hi Hc)|].
    intros j. unfold tick at 1. now rewrite (Hi Hc).
Qed.

Lemma solve_failure_rolls_back_witness :
  scheduleId (solveAnswered (FailAnswer "Bad Request") solvingState)
  = Some "job-1"
  /\ notSolvingView (solveAnswered (FailAnswer "Bad Request") solvingState)
  /\ intervals (solveAnswered (FailAnswer "Bad Request") solvingState) = [].
Proof.
  destruct (solve_failure_rolls_back solvingState sampleSchedule "Bad Request")
    as (Hi & _ & _ & Hv & _ & _ & Ht); [reflexivity|].
  split; [rewrite Hi; reflexivity|]. split; [exact Hv|].
  exact (proj1 (Ht eq_refl)).
Defined.

(** ** More on local edits *)

Lemma loadedResources_rerender msg ty st :
  loadedResources (rerender msg ty st) = loadedResources st.
Proof.
  unfold loadedResources. now rewrite rerender_loadedSchedule.
Qed.

Lemma loadedTasks_rerender_gen msg ty st :
  loadedTasks (rerender msg ty st) = loadedTasks st.
Proof.
  unfold loadedTasks. now rewrite rerender_loadedSchedule.
Qed.

Lemma filter_other_id (ts : list Task) (tid : string) :
  ~ In tid (map id ts) ->
  filter (fun t => negb (String.eqb (id t) tid)) ts = ts.
Proof.
  induction ts as [|t ts IH]; simpl; intros H; [reflexivity|].
  destruct (String.eqb (id t) tid) eqn:E; simpl.
  - apply String.eqb_eq in E. elim H. now left.
  - rewrite IH; [reflexivity|]. intros Hin. apply H. now right.
Qed.

Lemma distinct_ids_filter (keep : Task -> bool) (ts : list Task) :
  NoDup (map id ts) -> NoDup (map id (filter keep ts)).
Proof.
  intros Hnd. induction ts as [|t ts IH]; simpl in *; [constructor|].
  apply NoDup_cons_iff in Hnd. destruct Hnd as (Hni & Hnd).
  destruct (keep t); simpl; [|now apply IH].
  apply NoDup_cons_iff. split; [|now apply IH].
  rewrite in_map_iff. intros (u & Hu & Hin).
  apply filter_In in Hin. apply Hni.
  rewrite in_map_iff. exists u. tauto.
Qed.

(** X7: with a tasks array loaded, [removeTask(id)] drops exactly the tasks
    with this id: the others stay in their order, the resources are not
    touched, distinct ids stay distinct, and an id that no task has
    changes no task (the toast then names the id itself). *)
Theorem removeTask_removes_by_id
  (st : State) (sch : Schedule) (ts : list Task) (taskId_ : string) :
  loadedSchedule st = Some sch -> tasks sch = Some ts ->
  loadedTasks (removeTask taskId_ st)
  = filter (fun t => negb (String.eqb (id t) taskId_)) ts
  /\ (forall t, In t (loadedTasks (removeTask taskId_ st)) -> id t <> taskId_)
  /\ loadedResources (removeTask taskId_ st) = loadedResources st
  /\ (NoDup (map id ts) -> NoDup (map id (loadedTasks (removeTask taskId_ st))))
  /\ (~ In taskId_ (map id ts) ->
      loadedTasks (removeTask taskId_ st) = ts
      /\ (renderSolutionThrows sch = false ->
          notifications (removeTask taskId_ st)
          = (notifications st
             ++ [{| message := "Removed task: " ++ taskId_; type := "info" |}])%list)).
Proof.
  intros E Et.
  assert (Hts : loadedTasks (removeTask taskId_ st)
                = filter (fun t => negb (String.eqb (id t) taskId_)) ts).
  { unfold removeTask. rewrite E, Et. apply loadedTasks_rerender. }
  split; [exact Hts|]. split; [|split; [|split]].
  - intros t Hin. rewrite Hts in Hin. apply filter_In in Hin.
    destruct Hin as (_ & Hne). intros Heq.
    rewrite Heq, String.eqb_refl in Hne. discriminate.
  - unfold removeTask. rewrite E, Et, loadedResources_rerender.
    unfold loadedResources. simpl. now rewrite E.
  - intros Hnd. rewrite Hts. now apply distinct_ids_filter.
  - intros Hni. split; [rewrite Hts; now apply filter_other_id|].
    intros Hthrow. unfold removeTask. rewrite E, Et.
    assert (Hfind : find (fun t => String.eqb (id t) taskId_) ts = None).
    { destruct (find (fun t => String.eqb (id t) taskId_) ts) as [t|] eqn:Ef;
        [|reflexivity].
      apply find_some in Ef. destruct Ef as (Hin & Heq).
      apply String.eqb_eq in Heq. elim Hni. rewrite <- Heq. now apply in_map. }
    rewrite Hfind, (filter_other_id ts taskId_ Hni).
    unfold rerender, renderSchedule; simpl.
    assert (Hsame : set_tasks (Some ts) sch = sch)
      by (destruct sch; simpl in *; now rewrite Et).
    rewrite Hsame, Hthrow. simpl.
    unfold refreshSolvingButtons.
    destruct (isSolving sch); simpl;
      destruct (autoRefreshIntervalId st); reflexivity.
Qed.

Lemma removeTask_removes_by_id_witness :
  map id (loadedTasks (removeTask "t1" loadedState)) = ["t2"]
  /\ loadedTasks (removeTask "t9" loadedState) = [task1; task2].
Proof.
  destruct (removeTask_removes_by_id loadedState sampleSchedule
              [task1; task2] "t1") as (H1 & _); [reflexivity | reflexivity |].
  destruct (removeTask_removes_by_id loadedState sampleSchedule
              [task1; task2] "t9") as (_ & _ & _ & _ & H9);
    [reflexivity | reflexivity |].
  split.
  - rewrite H1. reflexivity.
  - apply H9. simpl. intuition discriminate.
Defined.

(** X8: removing the task that [addTask] has just added brings back the
    tasks and the resources as they were before the add. *)
Theorem addTask_then_removeTask
  (st : State) (taskName_ taskDuration taskSkill : string) :
  JS.trim taskName_ <> "" ->
  exists st' t,
    addTask taskName_ taskDuration taskSkill st = Some st'
    /\ loadedTasks st' = (loadedTasks st ++ [t])%list
    /\ taskName t = JS.trim taskName_
    /\ resource t = None
    /\ loadedTasks (removeTask (id t) st') = loadedTasks st
    /\ loadedResources (removeTask (id t) st') = loadedResources st.
Proof.
  intros Hname. unfold addTask.
  destruct (JS.trim taskName_) as [|ch rest] eqn:Et; [now elim Hname|].
  cbn [JS.truthyString negb].
  set (sch := match loadedSchedule st with
              | Some sch => sch | None => emptySchedule end).
  set (ts := match tasks sch with Some ts => ts | None => [] end).
  assert (Hts : loadedTasks st = ts).
  { unfold loadedTasks, ts, sch. destruct (loadedSchedule st); reflexivity. }
  assert (Hrs : loadedResources st
                = match resources sch with Some rs => rs | None => [] end).
  { unfold loadedResources, sch. destruct (loadedSchedule st); reflexivity. }
  destruct (freeCounter_terminates (List.length ts + 1) (map id ts)) as (k & Hk).
  rewrite length_map in Hk. rewrite Hk.
  apply freeCounter_Some in Hk. destruct Hk as (_ & Hfresh).
  eexists. eexists. split; [reflexivity|].
  rewrite loadedTasks_rerender, Hts.
  split; [reflexivity|]. split; [reflexivity|]. split; [reflexivity|].
  cbn [id]. unfold removeTask. rewrite rerender_loadedSchedule. simpl.
  rewrite loadedTasks_rerender, loadedResources_rerender, Hrs.
  split.
  - rewrite filter_app. simpl. rewrite String.eqb_refl. simpl.
    rewrite app_nil_r. now apply filter_other_id.
  - reflexivity.
Qed.

Lemma addTask_then_removeTask_witness :
  exists st' t,
    addTask "Paint" "20" "" loadedState = Some st'
    /\ id t = "task-3"
    /\ loadedTasks (removeTask (id t) st') = [task1; task2].
Proof.
  destruct (addTask_then_removeTask loadedState "Paint" "20" "")
    as (st' & t & Ha & Hl & _ & _ & Hr & _); [discriminate|].
  exists st', t. split; [exact Ha|]. split; [|exact Hr].
  vm_compute in Ha. injection Ha as <-.
  vm_compute in Hl. injection Hl as <-. reflexivity.
Defined.

Lemma existsb_name_false (rs : list Resource) (n : string) :
  existsb (fun r => String.eqb (name r) n) rs = false ->
  ~ In n (map name rs).
Proof.
  intros H Hin. apply in_map_iff in Hin. destruct Hin as (r & Hr & Hin).
  assert (Ht : existsb (fun r => String.eqb (name r) n) rs = true).
  { apply existsb_exists. exists r. split; [exact Hin|].
    rewrite Hr. apply String.eqb_refl. }
  congruence.
Qed.

(** What [addResource] does with a name that is new and not empty. *)
Lemma addResource_fresh st resourceName resourceCapacity resourceSkills :
  JS.trim resourceName <> "" ->
  ~ In (JS.trim resourceName) (map name (loadedResources st)) ->
  exists sch',
    addResource resourceName resourceCapacity resourceSkills st
    = rerender ("Added resource: " ++ JS.trim resourceName) "success"
        (set_loadedSchedule (Some sch') st)
    /\ resources sch'
       = Some (loadedResources st
               ++ [{| name := JS.trim resourceName;
                      capacity := JS.parseIntOr resourceCapacity 100;
                      skills :=
                        Some (if JS.truthyString (JS.trim resourceSkills)
                              then map (fun s => JS.toLowerCase (JS.trim s))
                                       (JS.split "," (JS.trim resourceSkills))
                              else []) |}])%list
    /\ match tasks sch' with Some ts => ts | None => [] end = loadedTasks st.
Proof.
  intros Hne Hni. unfold addResource.
  apply truthyString_true in Hne. rewrite Hne. cbn [negb].
  assert (Hdup : match loadedSchedule st with
                 | Some sch =>
                     match resources sch with
                     | Some rs =>
                         existsb (fun r => String.eqb (name r)
                                             (JS.trim resourceName)) rs
                     | None => false
                     end
                 | None => false
                 end = false).
  { unfold loadedResources in Hni.
    destruct (loadedSchedule st) as [sch|]; [|reflexivity].
    destruct (resources sch) as [rs|]; [|reflexivity].
    destruct (existsb _ rs) eqn:Ex; [|reflexivity].
    apply existsb_exists in Ex. destruct Ex as (r & Hin & Heq).
    apply String.eqb_eq in Heq. elim Hni. rewrite <- Heq. now apply in_map. }
  rewrite Hdup. eexists. split; [reflexivity|].
  unfold loadedResources, loadedTasks.
  destruct (loadedSchedule st) as [sch|]; simpl; split; reflexivity.
Qed.

(** X9: [addResource] keeps the resource names pairwise distinct for every
    input; a name that is new and not empty is appended behind the
    resources there are, with the capacity typed in (100 if that is no
    number or zero) and the skills trimmed and in lower case, and no task
    changes. *)
Theorem addResource_keeps_names_distinct
  (st : State) (resourceName resourceCapacity resourceSkills : string) :
  NoDup (map name (loadedResources st)) ->
  NoDup (map name (loadedResources
                     (addResource resourceName resourceCapacity resourceSkills st)))
  /\ loadedTasks (addResource resourceName resourceCapacity resourceSkills st)
     = loadedTasks st
  /\ (JS.trim resourceName <> "" ->
      ~ In (JS.trim resourceName) (map name (loadedResources st)) ->
      loadedResources (addResource resourceName resourceCapacity resourceSkills st)
      = (loadedResources st
         ++ [{| name := JS.trim resourceName;
                capacity := JS.parseIntOr resourceCapacity 100;
                skills :=
                  Some (if JS.truthyString (JS.trim resourceSkills)
                        then map (fun s => JS.toLowerCase (JS.trim s))
                                 (JS.split "," (JS.trim resourceSkills))
                        else []) |}])%list).
Proof.
  intros Hnd.
  assert (Hfresh : JS.trim resourceName <> "" ->
                   ~ In (JS.trim resourceName) (map name (loadedResources st)) ->
                   loadedResources
                     (addResource resourceName resourceCapacity resourceSkills st)
                   = (loadedResources st
                      ++ [{| name := JS.trim resourceName;
                             capacity := JS.parseIntOr resourceCapacity 100;
                             skills :=
                               Some (if JS.truthyString (JS.trim resourceSkills)
                                     then map (fun s => JS.toLowerCase (JS.trim s))
                                              (JS.split "," (JS.trim resourceSkills))
                                     else []) |}])%list
                   /\ loadedTasks
                        (addResource resourceName resourceCapacity resourceSkills st)
                      = loadedTasks st).
  { intros Hne Hni.
    destruct (addResource_fresh st resourceName resourceCapacity resourceSkills
                Hne Hni) as (sch' & -> & Hr & Ht).
    rewrite loadedResources_rerender, loadedTasks_rerender_gen.
    unfold loadedResources, loadedTasks. simpl. now rewrite Hr. }
  destruct (string_dec (JS.trim resourceName) "") as [Hempty|Hne].
  { assert (Hsame : addResource resourceName resourceCapacity resourceSkills st
                    = showNotification "Please enter a resource name" "warning" st)
      by (unfold addResource; now rewrite Hempty).
    rewrite Hsame. repeat split; trivial. intros H. now elim H. }
  destruct (in_dec string_dec (JS.trim resourceName)
              (map name (loadedResources st))) as [Hin|Hni].
  { assert (Hsame : addResource resourceName resourceCapacity resourceSkills st
                    = showNotification "A resource with this name already exists"
                        "warning" st).
    { unfold addResource. apply truthyString_true in Hne. rewrite Hne.
      cbn [negb]. unfold loadedResources in Hin.
      destruct (loadedSchedule st) as [sch|]; [|contradiction].
      destruct (resources sch) as [rs|]; [|contradiction].
      destruct (existsb (fun r => String.eqb (name r) (JS.trim resourceName)) rs)
        eqn:Ex; [reflexivity|].
      now apply existsb_name_false in Ex. }
    rewrite Hsame. repeat split; trivial. intros _ H. contradiction. }
  destruct (Hfresh Hne Hni) as (Hr & Ht).
  split; [|split; [exact Ht|intros _ _; exact Hr]].
  rewrite Hr, map_app. simpl. apply NoDup_app; trivial.
  - constructor; [intros []|constructor].
  - intros a Ha [<- | []]. contradiction.
Qed.

Lemma addResource_keeps_names_distinct_witness :
  map name (loadedResources (addResource " B " "abc" "Weld, PAINT" loadedState))
  = ["A"; "B"]
  /\ map capacity
       (loadedResources (addResource " B " "abc" "Weld, PAINT" loadedState))
     = [60; 100].
Proof.
  destruct (addResource_keeps_names_distinct loadedState " B " "abc" "Weld, PAINT")
    as (_ & _ & H).
  - simpl. repeat constructor. intros [].
  - rewrite H.
    + split; reflexivity.
    + discriminate.
    + simpl. intuition discriminate.
Defined.

Lemma removeResource_loaded st sch rs r :
  loadedSchedule st = Some sch -> resources sch = Some rs ->
  loadedResources (removeResource r st)
  = filter (fun x => negb (String.eqb (name x) r)) rs
  /\ loadedTasks (removeResource r st)
     = map (fun t => if sameName (resource t) r then set_resource None t else t)
           (loadedTasks st).
Proof.
  intros E Er. unfold removeResource. rewrite E, Er.
  rewrite loadedResources_rerender, loadedTasks_rerender_gen.
  unfold loadedResources, loadedTasks. simpl. rewrite E.
  destruct (tasks sch) eqn:Et; simpl; rewrite ?Et; split; reflexivity.
Qed.

(** X10: removing the resource that [addResource] has just added brings
    back the resources as they were; the tasks are the old ones, except
    that a task which already named the new resource is unassigned. *)
Theorem addResource_then_removeResource
  (st : State) (resourceName resourceCapacity resourceSkills : string) :
  JS.trim resourceName <> "" ->
  ~ In (JS.trim resourceName) (map name (loadedResources st)) ->
  loadedResources
    (removeResource (JS.trim resourceName)
       (addResource resourceName resourceCapacity resourceSkills st))
  = loadedResources st
  /\ loadedTasks
       (removeResource (JS.trim resourceName)
          (addResource resourceName resourceCapacity resourceSkills st))
     = map (fun t => if sameName (resource t) (JS.trim resourceName)
                     then set_resource None t else t)
           (loadedTasks st)
  /\ ((forall t, In t (loadedTasks st) ->
                 resource t <> Some (JS.trim resourceName)) ->
      loadedTasks
        (removeResource (JS.trim resourceName)
           (addResource resourceName resourceCapacity resourceSkills st))
      = loadedTasks st).
Proof.
  intros Hne Hni.
  destruct (addResource_fresh st resourceName resourceCapacity resourceSkills
              Hne Hni) as (sch' & -> & Hr & Ht).
  assert (Hfilter : filter (fun r => negb (String.eqb (name r)
                                             (JS.trim resourceName)))
                      (loadedResources st) = loadedResources st).
  { clear - Hni. induction (loadedResources st) as [|r rs IH]; [reflexivity|].
    simpl in *. destruct (String.eqb (name r) (JS.trim resourceName)) eqn:E.
    - apply String.eqb_eq in E. elim Hni. now left.
    - simpl. rewrite IH; [reflexivity|]. intros H. apply Hni. now right. }
  set (st1 := rerender ("Added resource: " ++ JS.trim resourceName) "success"
                (set_loadedSchedule (Some sch') st)).
  assert (H1 : loadedSchedule st1 = Some sch')
    by (unfold st1; now rewrite rerender_loadedSchedule).
  assert (Ht1 : loadedTasks st1 = loadedTasks st)
    by (unfold loadedTasks at 1; now rewrite H1).
  destruct (removeResource_loaded st1 sch' _ (JS.trim resourceName) H1 Hr)
    as (Hres & Htasks).
  rewrite Ht1 in Htasks.
  split; [|split; [exact Htasks|]].
  - rewrite Hres, filter_app, Hfilter. simpl.
    rewrite String.eqb_refl. simpl. apply app_nil_r.
  - intros Hnone. rewrite Htasks.
    rewrite <- (map_id (loadedTasks st)) at 2.
    apply map_ext_in. intros t Hin.
    destruct (sameName (resource t) (JS.trim resourceName)) eqn:E;
      [|reflexivity].
    apply sameName_true in E. now apply Hnone in Hin.
Qed.

Lemma addResource_then_removeResource_witness :
  loadedResources (removeResource "B" (addResource "B" "40" "" loadedState))
  = [resourceA]
  /\ loadedTasks (removeResource "B" (addResource "B" "40" "" loadedState))
     = [task1; task2].
Proof.
  destruct (addResource_then_removeResource loadedState "B" "40" "")
    as (Hr & _ & Ht).
  - discriminate.
  - simpl. intuition discriminate.
  - split; [exact Hr|]. apply Ht.
    intros t [<- | [<- | []]]; discriminate.
Defined.

(** ** More on the KPI metrics *)

Lemma filter_none_length {A : Type} (p : A -> bool) (l : list A) :
  (forall x, In x l -> p x = false) -> List.length (filter p l) = 0%nat.
Proof.
  induction l as [|x l IH]; simpl; intros H; [reflexivity|].
  rewrite (H x (or_introl eq_refl)). apply IH. intros y Hy. apply H. now right.
Qed.

Lemma filter_unmatched_nil (ts : list Task) (n : string) :
  (forall t, In t ts -> resource t <> Some n) ->
  filter (fun t => sameName (resource t) n) ts = [].
Proof.
  induction ts as [|t ts IH]; simpl; intros H; [reflexivity|].
  destruct (sameName (resource t) n) eqn:E.
  - apply sameName_true in E. elim (H t); [now left|exact E].
  - apply IH. intros u Hu. apply H. now right.
Qed.

(** X11: a schedule in which no task is assigned and no capacity is
    negative has no violation.  (A resource of negative capacity counts as
    over capacity even without tasks.) *)
Theorem countViolations_unassigned
  (schedule : Schedule) (ts : list Task) (rs : list Resource) :
  tasks schedule = Some ts -> resources schedule = Some rs ->
  (forall t, In t ts -> resource t = None) ->
  (countViolations schedule
   = List.length (filter (fun r => capacity r <? 0) rs))
  /\ ((forall r, In r rs -> 0 <= capacity r) -> countViolations schedule = 0%nat).
Proof.
  intros Et Er Hnone.
  assert (Hcount : countViolations schedule
                   = List.length (filter (fun r => capacity r <? 0) rs)).
  { unfold countViolations. rewrite Et, Er.
    rewrite filter_none_length.
    - simpl. f_equal. apply filter_ext. intros r.
      unfold capacityViolation, totalDuration.
      rewrite filter_unmatched_nil; [reflexivity|].
      intros t Hin. rewrite (Hnone t Hin). discriminate.
    - intros t Hin. unfold skillViolation. now rewrite (Hnone t Hin). }
  split; [exact Hcount|].
  intros Hcap. rewrite Hcount. apply filter_none_length.
  intros r Hin. apply Z.ltb_ge. now apply Hcap.
Qed.

Lemma countViolations_unassigned_witness :
  countViolations collidingSchedule = 0%nat.
Proof.
  apply (countViolations_unassigned collidingSchedule
           [{| id := "task-3"; taskName := "Third"; duration := 10;
               requiredSkill := Some ""; resource := None |};
            {| id := "task-4"; taskName := "Fourth"; duration := 10;
               requiredSkill := Some ""; resource := None |}] [resourceA]).
  - reflexivity.
  - reflexivity.
  - intros t [<- | [<- | []]]; reflexivity.
  - intros r [<- | []]. simpl. lia.
Defined.

(** The card of a task is drawn as a violation. *)
Lemma checkTaskViolation_true rs t sch :
  resources sch = Some rs ->
  (checkTaskViolation t sch = Some true <->
   exists n skill r,
     resource t = Some n /\ n <> ""
     /\ requiredSkill t = Some skill /\ skill <> ""
     /\ find (fun x => String.eqb n (name x)) rs = Some r
     /\ match skills r with Some sk => ~ In skill sk | None => True end).
Proof.
  intros Er. unfold checkTaskViolation, JS.truthy. rewrite Er. split.
  - destruct (resource t) as [n|]; simpl; [|discriminate].
    destruct (JS.truthyString n) eqn:En; simpl; [|discriminate].
    destruct (requiredSkill t) as [skill|]; simpl; [|discriminate].
    destruct (JS.truthyString skill) eqn:Es; simpl; [|discriminate].
    destruct (find (fun x => String.eqb n (name x)) rs) as [r|] eqn:Ef;
      [|discriminate].
    apply truthyString_true in En, Es. intros H.
    exists n, skill, r. repeat split; trivial.
    destruct (skills r) as [sk|]; [|exact I].
    intros Hin. apply includes_In in Hin. rewrite Hin in H. discriminate.
  - intros (n & skill & r & Hr & Hn & Hs & Hsk & Hf & Hl).
    apply truthyString_true in Hn, Hsk.
    rewrite Hr, Hs. simpl. rewrite Hn, Hsk. simpl. rewrite Hf.
    destruct (skills r) as [sk|]; [|reflexivity].
    destruct (JS.includes skill sk) eqn:E; [|reflexivity].
    apply includes_In in E. contradiction.
Qed.

(** The rendering is left by an exception exactly when the check of some
    task card throws. *)
Lemma renderSolutionThrows_checkTaskViolation sch :
  renderSolutionThrows sch = true <->
  exists t, In t (match tasks sch with Some ts => ts | None => [] end)
            /\ checkTaskViolation t sch = None.
Proof.
  unfold renderSolutionThrows, checkTaskViolation.
  destruct (tasks sch) as [ts|]; simpl.
  2:{ split; [discriminate|]. intros (t & [] & _). }
  destruct (resources sch) as [rs|].
  - split; [discriminate|]. intros (t & _ & H).
    destruct (negb (JS.truthy (resource t))); [discriminate|].
    destruct (JS.truthy (requiredSkill t)); [|discriminate].
    destruct (find _ rs); [|discriminate].
    destruct (negb _); discriminate.
  - rewrite existsb_exists. split.
    + intros (t & Hin & H). exists t. split; [exact Hin|].
      apply andb_prop in H. destruct H as (-> & ->). reflexivity.
    + intros (t & Hin & H). exists t. split; [exact Hin|].
      destruct (JS.truthy (resource t)); simpl in *; [|discriminate].
      destruct (JS.truthy (requiredSkill t)); [reflexivity|discriminate].
Qed.

(** X12: every task that [countViolations] counts for its skill is drawn
    with the violation border by [checkTaskViolation]; a card is drawn as a
    violation without being counted only when the resource it names has no
    skills array at all. *)
Theorem violation_cards_cover_count
  (schedule : Schedule) (rs : list Resource) (t : Task) :
  resources schedule = Some rs ->
  (skillViolation rs t = true -> checkTaskViolation t schedule = Some true)
  /\ (checkTaskViolation t schedule = Some true ->
      skillViolation rs t = false ->
      exists n r, resource t = Some n
                  /\ find (fun x => String.eqb n (name x)) rs = Some r
                  /\ skills r = None)
  /\ checkTaskViolation t schedule <> None.
Proof.
  intros Er. split; [|split].
  - intros H. apply skillViolation_true in H.
    destruct H as (n & skill & r & sk & Hr & Hn & Hs & Hsk & Hf & Hl & Hni).
    apply (checkTaskViolation_true rs t schedule Er).
    exists n, skill, r. rewrite Hl. repeat split; trivial.
  - intros Hc Hs. apply (checkTaskViolation_true rs t schedule Er) in Hc.
    destruct Hc as (n & skill & r & Hr & Hn & Hsk & Hskn & Hf & Hl).
    exists n, r. repeat split; trivial.
    destruct (skills r) as [sk|] eqn:Esk; [|reflexivity].
    assert (Ht : skillViolation rs t = true).
    { apply skillViolation_true. exists n, skill, r, sk. repeat split; trivial. }
    congruence.
  - unfold checkTaskViolation. rewrite Er.
    destruct (negb (JS.truthy (resource t))); [discriminate|].
    destruct (JS.truthy (requiredSkill t)); [|discriminate].
    destruct (find _ rs); [|discriminate].
    destruct (negb _); discriminate.
Qed.

Lemma violation_cards_cover_count_witness :
  checkTaskViolation task2 sampleSchedule = Some true
  /\ checkTaskViolation task1 sampleSchedule <> None.
Proof.
  destruct (violation_cards_cover_count sampleSchedule [resourceA] task2)
    as (H2 & _); [reflexivity|].
  destruct (violation_cards_cover_count sampleSchedule [resourceA] task1)
    as (_ & _ & H1); [reflexivity|].
  split; [apply H2; reflexivity | exact H1].
Defined.

Lemma rerender_kpis msg ty st sch :
  loadedSchedule st = Some sch ->
  kpiTotalTasks (rerender msg ty st)
  = JS.natToString
      (match tasks sch with Some ts => List.length ts | None => 0%nat end)
  /\ kpiAssigned (rerender msg ty st)
     = JS.natToString
         (match tasks sch with
          | Some ts => List.length (filter isAssigned ts)
          | None => 0%nat
          end)
  /\ kpiViolations (rerender msg ty st) = JS.natToString (countViolations sch).
Proof.
  intros E. unfold rerender, renderSchedule. rewrite E.
  destruct (renderSolutionThrows sch); simpl; repeat split.
Qed.

Lemma countViolations_unassigned_task sch ts t :
  tasks sch = Some ts -> resource t = None ->
  countViolations (set_tasks (Some (ts ++ [t])%list) sch) = countViolations sch.
Proof.
  intros Et Hr. unfold countViolations. simpl. rewrite Et.
  destruct (resources sch) as [rs|]; [|reflexivity].
  rewrite filter_app, length_app. simpl.
  assert (Hs : skillViolation rs t = false)
    by (unfold skillViolation; now rewrite Hr).
  rewrite Hs. simpl. rewrite Nat.add_0_r. f_equal. f_equal.
  apply filter_ext. intros r. unfold capacityViolation, totalDuration.
  rewrite filter_app. simpl. rewrite Hr. simpl. now rewrite app_nil_r.
Qed.

(** X13: on a schedule with a tasks array, a task added by [addTask]
    raises the Total Tasks KPI by one and leaves the Assigned and the
    Violations KPI as the schedule before gives them: the new task is
    unassigned. *)
Theorem addTask_kpis
  (st : State) (sch : Schedule) (ts : list Task)
  (taskName_ taskDuration taskSkill : string) :
  loadedSchedule st = Some sch -> tasks sch = Some ts ->
  JS.trim taskName_ <> "" ->
  exists st',
    addTask taskName_ taskDuration taskSkill st = Some st'
    /\ kpiTotalTasks st' = JS.natToString (S (List.length ts))
    /\ kpiAssigned st' = JS.natToString (List.length (filter isAssigned ts))
    /\ kpiViolations st' = JS.natToString (countViolations sch).
Proof.
  intros E Et Hname. unfold addTask.
  apply truthyString_true in Hname. rewrite Hname. cbn [negb].
  rewrite E, Et.
  destruct (freeCounter_terminates (List.length ts + 1) (map id ts)) as (k & Hk).
  rewrite length_map in Hk. rewrite Hk.
  eexists. split; [reflexivity|].
  match goal with
  | |- context [rerender ?m ?ty (set_loadedSchedule (Some ?s) st)] =>
      destruct (rerender_kpis m ty (set_loadedSchedule (Some s) st) s eq_refl)
        as (Htot & Hass & Hviol)
  end.
  cbn [tasks set_tasks] in Htot, Hass.
  rewrite Htot, Hass, Hviol.
  rewrite length_app, filter_app, length_app. simpl.
  rewrite !Nat.add_0_r, Nat.add_1_r.
  repeat split. f_equal. now apply countViolations_unassigned_task.
Qed.

Lemma addTask_kpis_witness :
  exists st',
    addTask "Paint" "20" "y" loadedState = Some st'
    /\ kpiTotalTasks st' = "3" /\ kpiAssigned st' = "2"
    /\ kpiViolations st' = "2".
Proof.
  destruct (addTask_kpis loadedState sampleSchedule [task1; task2]
              "Paint" "20" "y") as (st' & Ha & Ht & Has & Hv);
    [reflexivity | reflexivity | discriminate |].
  exists st'. split; [exact Ha|].
  rewrite Ht, Has, Hv. repeat split.
Defined.

Lemma filter_length_le {A : Type} (p q : A -> bool) (l : list A) :
  (forall x, In x l -> p x = true -> q x = true) ->
  (List.length (filter p l) <= List.length (filter q l))%nat.
Proof.
  induction l as [|x l IH]; simpl; intros H; [lia|].
  assert (IH' : (List.length (filter p l) <= List.length (filter q l))%nat)
    by (apply IH; intros y Hy; apply H; now right).
  destruct (p x) eqn:Ep.
  - rewrite (H x (or_introl eq_refl) Ep). simpl. lia.
  - destruct (q x); simpl; lia.
Qed.

Lemma filter_map_length {A : Type} (p : A -> bool) (f : A -> A) (l : list A) :
  List.length (filter p (map f l))
  = List.length (filter (fun x => p (f x)) l).
Proof.
  induction l as [|x l IH]; simpl; [reflexivity|].
  destruct (p (f x)); simpl; now rewrite IH.
Qed.

Lemma find_filter_other (rs : list Resource) (n r : string) :
  n <> r ->
  find (fun x => String.eqb n (name x))
       (filter (fun x => negb (String.eqb (name x) r)) rs)
  = find (fun x => String.eqb n (name x)) rs.
Proof.
  intros Hne. induction rs as [|x rs IH]; simpl; [reflexivity|].
  destruct (String.eqb (name x) r) eqn:Er; simpl.
  - apply String.eqb_eq in Er.
    destruct (String.eqb n (name x)) eqn:En; [|exact IH].
    apply String.eqb_eq in En. congruence.
  - now rewrite IH.
Qed.

Lemma totalDuration_unassign (ts : list Task) (n r : string) :
  n <> r ->
  totalDuration
    (map (fun t => if sameName (resource t) r then set_resource None t else t) ts)
    n
  = totalDuration ts n.
Proof.
  intros Hne. rewrite !totalDuration_sum.
  induction ts as [|t ts IH]; simpl; [reflexivity|].
  destruct (sameName (resource t) r) eqn:Er; simpl.
  - apply sameName_true in Er.
    assert (Hn : sameName (resource t) n = false).
    { rewrite Er. simpl. apply String.eqb_neq. congruence. }
    now rewrite Hn.
  - destruct (sameName (resource t) n); simpl; now rewrite IH.
Qed.

(** X14: removing a resource never raises the violation count: the tasks
    it held are unassigned and count no more, and for every other task and
    resource the count is what it was. *)
Theorem removeResource_never_adds_violations
  (st : State) (sch sch' : Schedule) (r : string) :
  loadedSchedule st = Some sch ->
  loadedSchedule (removeResource r st) = Some sch' ->
  (countViolations sch' <= countViolations sch)%nat.
Proof.
  intros E E'. unfold removeResource in E'. rewrite E in E'.
  destruct (resources sch) as [rs|] eqn:Er.
  2:{ rewrite E in E'. injection E' as <-. lia. }
  rewrite rerender_loadedSchedule in E'. simpl in E'.
  destruct (tasks sch) as [ts|] eqn:Et; simpl in E'; injection E' as <-.
  2:{ unfold countViolations. simpl. rewrite Et. lia. }
  unfold countViolations. simpl. rewrite Et, Er.
  apply Nat.add_le_mono.
  - rewrite filter_map_length. apply filter_length_le.
    intros t _ H. apply skillViolation_true in H.
    destruct H as (n & skill & x & sk & Hr & Hn & Hs & Hsk & Hf & Hl & Hni).
    destruct (sameName (resource t) r) eqn:Esame; simpl in Hr; [discriminate|].
    apply skillViolation_true. exists n, skill, x, sk.
    repeat split; trivial.
    rewrite <- Hf. symmetry. apply find_filter_other.
    intros ->. rewrite Hr in Esame. simpl in Esame.
    now rewrite String.eqb_refl in Esame.
  - transitivity
      (List.length (filter (capacityViolation ts)
                      (filter (fun x => negb (String.eqb (name x) r)) rs))).
    + apply Nat.eq_le_incl. f_equal. apply filter_ext_in.
      intros x Hx. apply filter_In in Hx. destruct Hx as (_ & Hx).
      unfold capacityViolation. rewrite totalDuration_unassign; [reflexivity|].
      intros Heq. rewrite Heq, String.eqb_refl in Hx. discriminate.
    + clear. induction rs as [|x rs IH]; simpl; [lia|].
      destruct (negb (String.eqb (name x) r)); simpl;
        destruct (capacityViolation ts x); simpl; lia.
Qed.

Lemma removeResource_never_adds_violations_witness :
  exists sch',
    loadedSchedule (removeResource "A" loadedState) = Some sch'
    /\ (countViolations sch' <= 2)%nat.
Proof.
  eexists. split; [reflexivity|].
  apply (removeResource_never_adds_violations loadedState sampleSchedule _ "A");
    reflexivity.
Defined.

(** ** Scores in the format of the server *)

Lemma spanDigits_uint (d : Decimal.uint) (rest : string) :
  headNotDigit rest ->
  JS.spanDigits (NilEmpty.string_of_uint d ++ rest)
  = (NilEmpty.string_of_uint d, rest).
Proof.
  intros H. induction d; simpl;
    try (rewrite IHd; reflexivity).
  destruct rest as [|c r]; simpl in *; [reflexivity|now rewrite H].
Qed.

Lemma digitsValue_step c s acc :
  JS.digitsValue (String c s) acc = JS.digitsValue s (10 * acc + JS.digitValue c).
Proof. reflexivity. Qed.

Lemma digitsValue_uint (d : Decimal.uint) : forall a : nat,
  JS.digitsValue (NilEmpty.string_of_uint d) (Z.of_nat a)
  = Z.of_nat (Nat.of_uint_acc d a).
Proof.
  induction d; intros a; cbn [NilEmpty.string_of_uint Nat.of_uint_acc];
    try reflexivity;
    rewrite digitsValue_step, Nat.tail_mul_spec, <- IHd; f_equal;
    match goal with
    | |- context [JS.digitValue ?c] =>
        let v := eval vm_compute in (JS.digitValue c) in
        change (JS.digitValue c) with v
    end; lia.
Qed.

Lemma natToString_value n : JS.digitsValue (JS.natToString n) 0 = Z.of_nat n.
Proof.
  unfold JS.natToString.
  change 0 with (Z.of_nat 0).
  rewrite (digitsValue_uint (Nat.to_uint n) 0).
  f_equal. apply Unsigned.of_to.
Qed.

Lemma natToString_span n rest :
  headNotDigit rest ->
  JS.spanDigits (JS.natToString n ++ rest) = (JS.natToString n, rest).
Proof. apply spanDigits_uint. Qed.

Lemma string_app_assoc (a b c : string) : ((a ++ b) ++ c = a ++ (b ++ c))%string.
Proof. induction a as [|x a IH]; simpl; [reflexivity|now rewrite IH]. Qed.

Lemma string_app_nil_r (a : string) : (a ++ "" = a)%string.
Proof. induction a as [|x a IH]; simpl; [reflexivity|now rewrite IH]. Qed.

Lemma string_length_app (a b : string) :
  String.length (a ++ b) = (String.length a + String.length b)%nat.
Proof. induction a as [|x a IH]; simpl; [reflexivity|now rewrite IH]. Qed.

Lemma natToString_digit n :
  exists c r,
    JS.natToString n = String c r
    /\ In c ["0"; "1"; "2"; "3"; "4"; "5"; "6"; "7"; "8"; "9"]%char.
Proof.
  unfold JS.natToString.
  destruct (Nat.to_uint n) as [|d|d|d|d|d|d|d|d|d|d] eqn:E;
    try (eexists; eexists; split; [reflexivity|simpl; tauto]).
  exfalso. pose proof (Unsigned.of_to n) as H. rewrite E in H.
  simpl in H. subst n. discriminate.
Qed.

(** The search passes a match and goes on behind it. *)
Lemma matchAll_skip (a b : string) :
  matchAll (a ++ b) (String.length a) = matchAll b 0.
Proof. induction a as [|x a IH]; simpl; [reflexivity|exact IH]. Qed.

(** An integer in front of a level is matched as a whole. *)
Lemma matchAt_int (z : Z) (rest : string) (k : Level) (n : nat) :
  levelAt rest = Some (k, n) ->
  matchAt (JS.intToString z ++ rest)
  = Some (JS.intToString z, k, (String.length (JS.intToString z) + n)%nat).
Proof.
  intros Hl.
  assert (Hrest : headNotDigit rest
                  /\ match rest with String "." _ => False | _ => True end).
  { unfold levelAt in Hl. destruct rest as [|c r]; [discriminate|].
    destruct c as [[] [] [] [] [] [] [] []];
      try (simpl in Hl; discriminate Hl); split; first [reflexivity|exact I]. }
  destruct Hrest as (Hnd & Hnp).
  destruct (natToString_digit (Z.to_nat (if z <? 0 then - z else z)))
    as (c & r & Hs & Hc).
  assert (Hspan : JS.spanDigits (String c (r ++ rest)) = (String c r, rest))
    by (change (String c (r ++ rest)) with (String c r ++ rest)%string;
        rewrite <- Hs; now apply natToString_span).
  unfold JS.intToString. destruct (z <? 0) eqn:Ez; rewrite Hs.
  - unfold matchAt. cbn [append]. rewrite Hspan.
    destruct rest as [|c' r']; [discriminate|].
    rewrite Hl.
    destruct c' as [[] [] [] [] [] [] [] []]; try reflexivity.
    contradiction.
  - unfold matchAt. cbn [append].
    assert (Hsign : match String c (r ++ rest) with
                    | String "-" r0 => ("-", r0)
                    | _ => ("", String c (r ++ rest))
                    end = ("", String c (r ++ rest))).
    { simpl in Hc.
      destruct Hc as [<-|[<-|[<-|[<-|[<-|[<-|[<-|[<-|[<-|[<-|[]]]]]]]]]]];
        reflexivity. }
    rewrite Hsign, Hspan.
    destruct rest as [|c' r']; [discriminate|].
    rewrite Hl.
    destruct c' as [[] [] [] [] [] [] [] []]; try reflexivity.
    contradiction.
Qed.

Lemma intToString_head z : exists c r, JS.intToString z = String c r.
Proof.
  unfold JS.intToString. destruct (z <? 0); [eexists; eexists; reflexivity|].
  destruct (natToString_digit (Z.to_nat z)) as (c & r & -> & _).
  now exists c, r.
Qed.

Lemma matchAll_int (z : Z) (kw tail : string) (k : Level) :
  levelAt (kw ++ tail) = Some (k, String.length kw) ->
  matchAll (JS.intToString z ++ kw ++ tail) 0
  = (JS.intToString z, k) :: matchAll tail 0.
Proof.
  intros Hl. pose proof (matchAt_int z (kw ++ tail) k _ Hl) as Hm.
  destruct (intToString_head z) as (c & r & Hs). rewrite Hs in *.
  cbn [append matchAll] in *. rewrite Hm. f_equal.
  cbn [String.length].
  replace (S (String.length r) + String.length kw - 1)%nat
    with (String.length (r ++ kw)) by (rewrite string_length_app; lia).
  rewrite <- string_app_assoc. apply matchAll_skip.
Qed.

Lemma parseFloat_int (z : Z) : parseFloat (JS.intToString z) = z # 1.
Proof.
  unfold JS.intToString. destruct (z <? 0) eqn:Ez.
  - apply Z.ltb_lt in Ez. unfold parseFloat. cbn [append].
    rewrite <- (string_app_nil_r (JS.natToString (Z.to_nat (- z)))) at 1.
    rewrite natToString_span by exact I.
    rewrite string_app_nil_r, natToString_value, Z2Nat.id by lia.
    simpl. now rewrite Z.opp_involutive.
  - apply Z.ltb_ge in Ez. unfold parseFloat.
    destruct (natToString_digit (Z.to_nat z)) as (c & r & Hs & Hc).
    assert (Hsign : match JS.natToString (Z.to_nat z) with
                    | String "-" r0 => (true, r0)
                    | _ => (false, JS.natToString (Z.to_nat z))
                    end = (false, JS.natToString (Z.to_nat z))).
    { rewrite Hs. simpl in Hc.
      destruct Hc as [<-|[<-|[<-|[<-|[<-|[<-|[<-|[<-|[<-|[<-|[]]]]]]]]]]];
        reflexivity. }
    rewrite Hsign.
    rewrite <- (string_app_nil_r (JS.natToString (Z.to_nat z))) at 1.
    rewrite natToString_span by exact I.
    rewrite string_app_nil_r, natToString_value, Z2Nat.id by lia.
    reflexivity.
Qed.

Lemma Qred_int (z : Z) : Qred (z # 1) = z # 1.
Proof.
  unfold Qred.
  pose proof (Z.ggcd_correct_divisors z 1) as H.
  pose proof (Z.ggcd_gcd z 1) as Hg.
  destruct (Z.ggcd z 1) as (g & aa & bb). simpl in *.
  rewrite Z.gcd_1_r in Hg. subst g. destruct H as (Ha & Hb).
  rewrite Z.mul_1_l in Ha, Hb. now subst.
Qed.

Lemma numberToString_int (z : Z) : JS.numberToString (z # 1) = JS.intToString z.
Proof.
  unfold JS.numberToString. rewrite Qred_int.
  cbn [Qnum Qden]. rewrite Z.div_1_r, Z.mod_1_r.
  change (JS.fractionDigits (S (Z.to_nat (Z.log2 1))) 0 1) with EmptyString.
  cbn [JS.truthyString]. rewrite string_app_nil_r.
  unfold JS.intToString. destruct (z <? 0) eqn:Ez.
  - apply Z.ltb_lt in Ez. rewrite Z.abs_neq by lia. reflexivity.
  - apply Z.ltb_ge in Ez. rewrite Z.abs_eq by lia. reflexivity.
Qed.

(** X15: a score text with integer components, as the server sends it, is
    parsed into exactly these components (medium 0), and [formatScore]
    shows it as ["hard/soft"] with the same two integers; the components
    are integers that a number holds exactly, up to 2^53 - 1 in
    magnitude. *)
Theorem score_text_round_trip (h s : Z) :
  Z.abs h <= JS.MAX_SAFE_INTEGER -> Z.abs s <= JS.MAX_SAFE_INTEGER ->
  getScoreComponents (ScoreString (scoreText h s))
  = {| hard := h # 1; medium := 0; soft := s # 1 |}
  /\ formatScore (ScoreString (scoreText h s))
     = JS.intToString h ++ "/" ++ JS.intToString s.
Proof.
  intros _ _.
  assert (Hm : matchAll (scoreText h s) 0
               = [(JS.intToString h, Hard); (JS.intToString s, Soft)]).
  { change (scoreText h s)
      with (JS.intToString h ++ "hard" ++ "/" ++ JS.intToString s ++ "soft")%string.
    rewrite (matchAll_int h "hard" ("/" ++ JS.intToString s ++ "soft") Hard)
      by reflexivity.
    f_equal. cbn [append matchAll].
    change (matchAt (String "/" (JS.intToString s ++ "soft"))) with
      (@None (string * Level * nat)).
    rewrite <- (string_app_nil_r "soft").
    rewrite (matchAll_int s "soft" "" Soft) by reflexivity.
    reflexivity. }
  assert (Hc : getScoreComponents (ScoreString (scoreText h s))
               = {| hard := h # 1; medium := 0; soft := s # 1 |}).
  { unfold getScoreComponents. rewrite Hm. simpl.
    now rewrite !parseFloat_int. }
  split; [exact Hc|].
  unfold formatScore. rewrite Hc. cbn [hard soft].
  rewrite !numberToString_int.
  destruct (intToString_head h) as (c & r & Hh).
  assert (Htruthy : truthyScore (ScoreString (scoreText h s)) = true)
    by (unfold scoreText; rewrite Hh; reflexivity).
  assert (Hq : String.eqb (scoreText h s) "?" = false).
  { unfold scoreText. rewrite Hh. cbn [append].
    destruct r; simpl; destruct (Ascii.eqb c "?"); reflexivity. }
  rewrite Htruthy, Hq. reflexivity.
Qed.

Lemma score_text_round_trip_witness :
  getScoreComponents (ScoreString "-2hard/-115soft")
  = {| hard := -2 # 1; medium := 0; soft := -115 # 1 |}
  /\ formatScore (ScoreString "-2hard/-115soft") = "-2/-115".
Proof.
  apply (score_text_round_trip (-2) (-115));
    unfold JS.MAX_SAFE_INTEGER; simpl; lia.
Defined.

(** ** Weights that pass *)

Lemma allDigits_uint (d : Decimal.uint) :
  allDigits (NilEmpty.string_of_uint d) = true.
Proof. induction d; simpl; trivial. Qed.

Lemma spanDigits_allDigits (s : string) :
  allDigits s = true -> JS.spanDigits s = (s, EmptyString).
Proof.
  induction s as [|c r IH]; simpl; [reflexivity|].
  intros H. apply andb_prop in H. destruct H as (Hc & Hr).
  now rewrite Hc, (IH Hr).
Qed.

(** [parseInt] reads a text of decimal digits as the number it writes. *)
Lemma parseInt_digits (s : string) :
  allDigits s = true -> s <> "" ->
  JS.parseInt s = Some (JS.digitsValue s 0).
Proof.
  intros Hd Hne. destruct s as [|c r]; [now elim Hne|].
  pose proof (spanDigits_allDigits _ Hd) as Hspan.
  simpl in Hd. apply andb_prop in Hd. destruct Hd as (Hc & Hr).
  unfold JS.parseInt. cbn [JS.trimStart].
  destruct c as [[] [] [] [] [] [] [] []]; try discriminate Hc;
    match goal with
    | |- context [JS.isWhiteSpace ?c] =>
        let v := eval vm_compute in (JS.isWhiteSpace c) in
        change (JS.isWhiteSpace c) with v
    end; cbv iota beta;
    try (rewrite Hspan; reflexivity).
  destruct r as [|c2 r2]; [reflexivity|].
  simpl in Hr. apply andb_prop in Hr. destruct Hr as (Hc2 & _).
  destruct c2 as [[] [] [] [] [] [] [] []]; try discriminate Hc2;
    rewrite Hspan; reflexivity.
Qed.

Lemma parseInt_natToString (n : nat) :
  JS.parseInt (JS.natToString n) = Some (Z.of_nat n).
Proof.
  rewrite parseInt_digits.
  - now rewrite natToString_value.
  - apply allDigits_uint.
  - destruct (natToString_digit n) as (c & r & -> & _). discriminate.
Qed.

Lemma parseIntOr_natToString (n : nat) (dflt : Z) :
  (0 < n)%nat -> JS.parseIntOr (JS.natToString n) dflt = Z.of_nat n.
Proof.
  intros Hn. unfold JS.parseIntOr. rewrite parseInt_natToString.
  destruct (Z.of_nat n =? 0) eqn:E; [|reflexivity].
  apply Z.eqb_eq in E. lia.
Qed.

(** X16: a slider that holds the decimal text of a positive integer (up
    to 2^53 - 1, the integers that a number holds exactly) gives that
    integer as the weight of its constraint, whatever the other sliders
    hold; and after [resetConstraintWeights] the weights read from the
    sliders are the defaults 100, 100, 50, 50. *)
Theorem weights_pass_and_reset (st : State) :
  (forall n, (0 < n)%nat -> Z.of_nat n <= JS.MAX_SAFE_INTEGER ->
             weightRequiredSkill st = JS.natToString n ->
             required_skill (getConstraintWeights st) = Z.of_nat n)
  /\ (forall n, (0 < n)%nat -> Z.of_nat n <= JS.MAX_SAFE_INTEGER ->
                weightResourceCapacity st = JS.natToString n ->
                resource_capacity (getConstraintWeights st) = Z.of_nat n)
  /\ (forall n, (0 < n)%nat -> Z.of_nat n <= JS.MAX_SAFE_INTEGER ->
                weightMinimizeDuration st = JS.natToString n ->
                minimize_duration (getConstraintWeights st) = Z.of_nat n)
  /\ (forall n, (0 < n)%nat -> Z.of_nat n <= JS.MAX_SAFE_INTEGER ->
                weightBalanceLoad st = JS.natToString n ->
                balance_load (getConstraintWeights st) = Z.of_nat n)
  /\ getConstraintWeights (resetConstraintWeights st) = DEFAULT_WEIGHTS
  /\ loadedSchedule (resetConstraintWeights st) = loadedSchedule st.
Proof.
  repeat split; try (intros n Hn _ E; unfold getConstraintWeights; simpl;
                     rewrite E; now apply parseIntOr_natToString).
Qed.

Lemma weights_pass_and_reset_witness :
  required_skill (getConstraintWeights loadedState) = 100
  /\ getConstraintWeights (resetConstraintWeights zeroWeightState)
     = DEFAULT_WEIGHTS.
Proof.
  destruct (weights_pass_and_reset loadedState) as (H & _).
  destruct (weights_pass_and_reset zeroWeightState) as (_ & _ & _ & _ & Hr & _).
  split; [|exact Hr].
  apply (H 100%nat); [lia|unfold JS.MAX_SAFE_INTEGER; lia|reflexivity].
Defined.

(** ** The analysis table *)

Lemma getScoreComponents_default (sc : ScoreValue) :
  getScoreComponents (scoreOr sc (ScoreString "0hard/0soft"))
  = getScoreComponents sc.
Proof.
  unfold scoreOr. destruct sc as [| |s|]; simpl; try reflexivity.
  destruct s; reflexivity.
Qed.

(** The row shows the warning triangle exactly for a negative hard
    component. *)
Lemma analysisRow_violated (c : Constraint) :
  icon (analysisRow c) = IconViolated <-> (hardOf c < 0)%Q.
Proof.
  unfold analysisRow, hardOf. cbn [icon].
  rewrite getScoreComponents_default.
  set (h := hard (getScoreComponents (constraintScore c))).
  destruct (Qeq_bool h 0) eqn:E0, (JS.Qltb h 0) eqn:E1; simpl;
    tests_to_props.
  - split; [|lra].
    destruct (Nat.eqb _ 0); discriminate.
  - split; [|lra].
    destruct (Nat.eqb _ 0); discriminate.
  - split; [intros _; exact E1|reflexivity].
  - split; [|lra].
    destruct (Nat.eqb _ 0); discriminate.
Qed.

Lemma sorted_split {A : Type} (R : A -> A -> Prop) (p : A -> bool) (l : list A) :
  (forall a b, R a b -> p b = true -> p a = true) ->
  StronglySorted R l ->
  exists front back,
    l = (front ++ back)%list
    /\ Forall (fun x => p x = true) front
    /\ Forall (fun x => p x = false) back.
Proof.
  intros Hp. induction 1 as [|x l Hs IH Hall].
  - exists [], []. repeat split; constructor.
  - destruct IH as (front & back & -> & Hf & Hb).
    destruct (p x) eqn:Ex.
    + exists (x :: front), back. repeat split; trivial. now constructor.
    + exists [], (x :: front ++ back)%list. repeat split; [constructor|].
      constructor; [exact Ex|].
      rewrite Forall_forall in *. intros y Hy.
      destruct (p y) eqn:Ey; [|reflexivity].
      rewrite (Hp x y (Hall y Hy) Ey) in Ex. discriminate.
Qed.

(** X17: the analysis table has one row for each constraint that the
    server sent, and the rows with the warning triangle (negative hard
    component) stand in one block at the top; without constraints, or with
    the field missing, the modal says that there is no constraint data. *)
Theorem analysis_table_violated_first (constraints : list Constraint) :
  renderScoreAnalysis None = NoConstraintData
  /\ renderScoreAnalysis (Some []) = NoConstraintData
  /\ (constraints <> [] ->
      exists top bottom,
        renderScoreAnalysis (Some constraints) = AnalysisTable (top ++ bottom)
        /\ Forall (fun row => icon row = IconViolated) top
        /\ Forall (fun row => icon row <> IconViolated) bottom
        /\ List.length (top ++ bottom) = List.length constraints
        /\ Permutation (map constraintName constraints)
                       (map rowName (top ++ bottom))).
Proof.
  split; [reflexivity|]. split; [reflexivity|]. intros Hne.
  destruct (sorted_split listedBefore (fun c => JS.Qltb (hardOf c) 0)
              (sortConstraints constraints)) as (front & back & Hl & Hf & Hb).
  { intros a b Hab Hb. apply Qltb_lt in Hb. apply Qltb_lt.
    unfold listedBefore in Hab. lra. }
  { apply sortConstraints_sorted. }
  exists (map analysisRow front), (map analysisRow back).
  assert (Hrows : renderScoreAnalysis (Some constraints)
                  = AnalysisTable (map analysisRow (sortConstraints constraints)))
    by (destruct constraints; [now elim Hne|reflexivity]).
  rewrite Hrows, Hl, map_app. split; [reflexivity|].
  split; [|split; [|split]].
  - rewrite Forall_map. apply (Forall_impl _ (P := fun c => JS.Qltb (hardOf c) 0 = true));
      [|exact Hf].
    intros c Hc. apply analysisRow_violated. now apply Qltb_lt.
  - rewrite Forall_map. apply (Forall_impl _ (P := fun c => JS.Qltb (hardOf c) 0 = false));
      [|exact Hb].
    intros c Hc Hi. apply analysisRow_violated in Hi.
    apply Qltb_lt in Hi. congruence.
  - rewrite <- map_app, length_map, <- Hl.
    symmetry. apply Permutation_length, sort_Permutation.
  - rewrite <- map_app, <- Hl, map_map. cbn [rowName analysisRow].
    apply Permutation_map, sort_Permutation.
Qed.

Lemma analysis_table_violated_first_witness :
  exists top bottom,
    renderScoreAnalysis (Some exampleConstraints) = AnalysisTable (top ++ bottom)
    /\ Forall (fun row => icon row = IconViolated) top
    /\ Forall (fun row => icon row <> IconViolated) bottom.
Proof.
  destruct (analysis_table_violated_first exampleConstraints)
    as (_ & _ & H).
  destruct H as (top & bottom & Ht & Hv & Hn & _); [discriminate|].
  now exists top, bottom.
Defined.

(** ** The colour factory *)

Lemma land_mask_mask (x m : Z) : Z.land (Z.land x m) m = Z.land x m.
Proof. now rewrite <- Z.land_assoc, Z.land_diag. Qed.

Lemma land_mask_other (x m m' : Z) :
  Z.land m m' = 0 -> Z.land (Z.land x m) m' = 0.
Proof. intros H. now rewrite <- Z.land_assoc, H, Z.land_0_r. Qed.

Lemma land_mask_bounds (x m : Z) : 0 <= m -> 0 <= Z.land x m <= m.
Proof.
  intros Hm. split; [apply Z.land_nonneg; now right|].
  destruct (Z.eq_dec (Z.land x m) 0) as [->|Hne]; [exact Hm|].
  assert (H0 : 0 <= Z.land x m) by (apply Z.land_nonneg; now right).
  pose proof (Z.add_lor_land (Z.land x m) (Z.lxor (Z.land x m) m)) as Hadd.
  assert (Hdisj : Z.land (Z.land x m) (Z.lxor (Z.land x m) m) = 0).
  { apply Z.bits_inj'. intros n Hn.
    rewrite Z.land_spec, Z.lxor_spec, Z.land_spec, Z.bits_0.
    destruct (Z.testbit x n), (Z.testbit m n); reflexivity. }
  assert (Hor : Z.lor (Z.land x m) (Z.lxor (Z.land x m) m) = m).
  { apply Z.bits_inj'. intros n Hn.
    rewrite Z.lor_spec, Z.lxor_spec, Z.land_spec.
    destruct (Z.testbit x n), (Z.testbit m n); reflexivity. }
  rewrite Hdisj, Hor in Hadd.
  assert (Hx : 0 <= Z.lxor (Z.land x m) m) by (apply Z.lxor_nonneg; lia).
  lia.
Qed.

Lemma lor_le_add (a b : Z) : 0 <= a -> 0 <= b -> Z.lor a b <= a + b.
Proof.
  intros Ha Hb. pose proof (Z.add_lor_land a b) as H.
  assert (0 <= Z.land a b) by (apply Z.land_nonneg; now left). lia.
Qed.

(** A channel of a colour is a multiple of the unit of the channel. *)
Lemma land_channel (x k : Z) :
  0 <= k -> Z.land x (Z.shiftl 255 k) = ((x / 2 ^ k) mod 256) * 2 ^ k.
Proof.
  intros Hk.
  assert (H : Z.land x (Z.shiftl 255 k)
              = Z.shiftl (Z.land (Z.shiftr x k) (Z.ones 8)) k).
  { apply Z.bits_inj'. intros n Hn.
    rewrite Z.land_spec.
    destruct (Z.lt_ge_cases n k) as [Hlt|Hge].
    - rewrite !Z.shiftl_spec_low by lia. apply andb_false_r.
    - rewrite !Z.shiftl_spec by lia. rewrite Z.land_spec, Z.shiftr_spec by lia.
      replace (n - k + k) with n by lia. reflexivity. }
  rewrite H, Z.land_ones, Z.shiftr_div_pow2, Z.shiftl_mul_pow2 by lia.
  reflexivity.
Qed.

Lemma Qfloor_between (p : Q) (d : Z) :
  (0 <= p)%Q -> (p <= 1)%Q ->
  Z.min 0 d <= Qfloor (p * inject_Z d) <= Z.max 0 d.
Proof.
  intros H0 H1.
  destruct (Z.le_ge_cases 0 d) as [Hd|Hd].
  - rewrite Z.min_l, Z.max_r by lia.
    assert (Hq : (0 <= inject_Z d)%Q)
      by (change (inject_Z 0 <= inject_Z d)%Q; rewrite <- Zle_Qle; exact Hd).
    split.
    + rewrite <- (Qfloor_Z 0). apply Qfloor_resp_le.
      change (0 <= p * inject_Z d)%Q. nra.
    + rewrite <- (Qfloor_Z d) at 2. apply Qfloor_resp_le. nra.
  - rewrite Z.min_r, Z.max_l by lia.
    assert (Hq : (inject_Z d <= 0)%Q)
      by (change (inject_Z d <= inject_Z 0)%Q; rewrite <- Zle_Qle; lia).
    split.
    + rewrite <- (Qfloor_Z d) at 1. apply Qfloor_resp_le. nra.
    + rewrite <- (Qfloor_Z 0). apply Qfloor_resp_le.
      change (p * inject_Z d <= 0)%Q. nra.
Qed.

(** A channel that is shaded by a percentage between 0 and 1 lies between
    the channels of the two colours. *)
Lemma shadeChannel_between (k floorColor ceilColor : Z) (p : Q) :
  0 <= k -> (0 <= p)%Q -> (p <= 1)%Q ->
  Z.min (Z.land floorColor (Z.shiftl 255 k)) (Z.land ceilColor (Z.shiftl 255 k))
  <= shadeChannel (Z.shiftl 255 k) floorColor ceilColor p
  <= Z.max (Z.land floorColor (Z.shiftl 255 k)) (Z.land ceilColor (Z.shiftl 255 k)).
Proof.
  intros Hk H0 H1. unfold shadeChannel.
  rewrite !(land_channel _ k Hk).
  set (a := (floorColor / 2 ^ k) mod 256).
  set (b := (ceilColor / 2 ^ k) mod 256).
  assert (Ha : 0 <= a < 256) by (apply Z.mod_pos_bound; lia).
  assert (Hb : 0 <= b < 256) by (apply Z.mod_pos_bound; lia).
  assert (Hu : 0 < 2 ^ k) by (apply Z.pow_pos_nonneg; lia).
  pose proof (Qfloor_between p (b * 2 ^ k - a * 2 ^ k) H0 H1) as Hf.
  set (v := a * 2 ^ k + Qfloor (p * inject_Z (b * 2 ^ k - a * 2 ^ k))) in *.
  assert (Hv : Z.min (a * 2 ^ k) (b * 2 ^ k) <= v
               <= Z.max (a * 2 ^ k) (b * 2 ^ k)) by (unfold v; lia).
  assert (Hlo : Z.min a b <= v / 2 ^ k).
  { apply Z.div_le_lower_bound; [exact Hu|].
    destruct (Z.le_ge_cases a b); [rewrite Z.min_l by lia|rewrite Z.min_r by lia];
      nia. }
  assert (Hhi : v / 2 ^ k <= Z.max a b).
  { apply Z.div_le_upper_bound; [exact Hu|].
    destruct (Z.le_ge_cases a b); [rewrite Z.max_r by lia|rewrite Z.max_l by lia];
      nia. }
  rewrite (Z.mod_small (v / 2 ^ k) 256) by lia.
  destruct (Z.le_ge_cases a b);
    [rewrite Z.min_l, Z.max_r by nia | rewrite Z.min_r, Z.max_l by nia]; nia.
Qed.

Lemma buildPercentageColor_channel (m floorColor ceilColor : Z) (p : Q) :
  In m [0xFF0000; 0x00FF00; 0x0000FF] ->
  Z.land (buildPercentageColor floorColor ceilColor p) m
  = shadeChannel m floorColor ceilColor p.
Proof.
  unfold buildPercentageColor, shadeChannel.
  intros [<- | [<- | [<- | []]]];
    rewrite !Z.land_lor_distr_l, land_mask_mask,
      !land_mask_other by reflexivity;
    rewrite ?Z.lor_0_r, ?Z.lor_0_l; reflexivity.
Qed.

Lemma buildPercentageColor_24bit (floorColor ceilColor : Z) (p : Q) :
  0 <= buildPercentageColor floorColor ceilColor p <= 0xFFFFFF.
Proof.
  unfold buildPercentageColor, shadeChannel.
  match goal with
  | |- _ <= Z.lor (Z.lor (Z.land ?r _) (Z.land ?g _)) (Z.land ?b _) <= _ =>
      pose proof (land_mask_bounds r 0xFF0000 ltac:(lia)) as Hr;
      pose proof (land_mask_bounds g 0x00FF00 ltac:(lia)) as Hg;
      pose proof (land_mask_bounds b 0x0000FF ltac:(lia)) as Hb;
      set (red := Z.land r 0xFF0000) in *;
      set (green := Z.land g 0x00FF00) in *;
      set (blue := Z.land b 0x0000FF) in *
  end.
  assert (H1 : 0 <= Z.lor red green) by (apply Z.lor_nonneg; lia).
  pose proof (lor_le_add red green ltac:(lia) ltac:(lia)).
  pose proof (lor_le_add (Z.lor red green) blue H1 ltac:(lia)).
  split; [apply Z.lor_nonneg; lia | lia].
Qed.

Lemma buildPercentageColor_between (floorColor ceilColor : Z) (p : Q) (m : Z) :
  (0 <= p)%Q -> (p <= 1)%Q -> In m [0xFF0000; 0x00FF00; 0x0000FF] ->
  Z.min (Z.land floorColor m) (Z.land ceilColor m)
  <= Z.land (buildPercentageColor floorColor ceilColor p) m
  <= Z.max (Z.land floorColor m) (Z.land ceilColor m).
Proof.
  intros H0 H1 Hm.
  rewrite (buildPercentageColor_channel m floorColor ceilColor p Hm).
  destruct Hm as [<- | [<- | [<- | []]]].
  - apply (shadeChannel_between 16 floorColor ceilColor p); [lia|exact H0|exact H1].
  - apply (shadeChannel_between 8 floorColor ceilColor p); [lia|exact H0|exact H1].
  - apply (shadeChannel_between 0 floorColor ceilColor p); [lia|exact H0|exact H1].
Qed.

(** X18: [buildPercentageColor] always returns a 24-bit colour, whatever
    its arguments; and for a percentage between 0 and 1 every channel
    (red, green, blue) of the result lies between the same channel of the
    two colours given. *)
Theorem buildPercentageColor_range (floorColor ceilColor : Z) (p : Q) :
  0 <= buildPercentageColor floorColor ceilColor p <= 0xFFFFFF
  /\ ((0 <= p)%Q -> (p <= 1)%Q ->
      forall m, In m [0xFF0000; 0x00FF00; 0x0000FF] ->
        Z.min (Z.land floorColor m) (Z.land ceilColor m)
        <= Z.land (buildPercentageColor floorColor ceilColor p) m
        <= Z.max (Z.land floorColor m) (Z.land ceilColor m)).
Proof.
  split; [apply buildPercentageColor_24bit|].
  intros H0 H1 m Hm. now apply buildPercentageColor_between.
Qed.

Lemma buildPercentageColor_range_witness :
  Z.land (buildPercentageColor 0x73D216 0x8AE234 (1 # 2)) 0xFF0000 = 0x7E0000
  /\ Z.min (Z.land 0x73D216 0xFF0000) (Z.land 0x8AE234 0xFF0000)
     <= Z.land (buildPercentageColor 0x73D216 0x8AE234 (1 # 2)) 0xFF0000.
Proof.
  destruct (buildPercentageColor_range 0x73D216 0x8AE234 (1 # 2)) as (_ & H).
  split; [reflexivity|].
  apply H; [lra | lra | left; reflexivity].
Defined.

(** The loop of [nextColor] ends: with enough fuel it returns the first
    doubling of [divisor] that is above [base]. *)
Lemma doubleUntil_ends (fuel : nat) : forall base divisor,
  1 <= divisor -> Z.max 0 (base - divisor + 1) < Z.of_nat fuel ->
  exists D,
    doubleUntil fuel base divisor = Some D
    /\ base < D /\ (D = divisor \/ D <= 2 * base).
Proof.
  induction fuel as [|f IH]; intros base divisor Hd Hf.
  - simpl in Hf. lia.
  - cbn [doubleUntil]. destruct (divisor <=? base) eqn:E.
    + apply Z.leb_le in E.
      destruct (IH base (divisor * 2)) as (D & HD & Hb & Hc); [lia|lia|].
      exists D. repeat split; trivial. right. lia.
    + apply Z.leb_gt in E. exists divisor. repeat split; trivial. now left.
Qed.

Lemma shade_base (s : Z) : Qfloor (inject_Z s / 2 + 1) = (s + 2) / 2.
Proof.
  rewrite Zdiv_Qdiv. apply Qfloor_comp.
  rewrite inject_Z_plus. change (inject_Z 2) with 2%Q. field.
Qed.

(** The shade percentage is defined for every shade index, and from the
    shade index 3 on it lies strictly between 0 and 1. *)
Lemma shadePercentage_range (shadeIndex : Z) :
  exists p,
    shadePercentage shadeIndex = Some p
    /\ (3 <= shadeIndex -> (0 < p)%Q /\ (p < 1)%Q).
Proof.
  unfold shadePercentage. rewrite shade_base.
  set (base := (shadeIndex - 3 + 2) / 2).
  destruct (doubleUntil_ends (S (Z.to_nat base)) base 2) as (D & -> & Hb & Hc);
    [lia|lia|].
  eexists. split; [reflexivity|]. intros Hs.
  assert (Hbase : 1 <= base)
    by (unfold base; apply Z.div_le_lower_bound; lia).
  assert (HD : (0 < inject_Z D)%Q)
    by (change (inject_Z 0 < inject_Z D)%Q; rewrite <- Zlt_Qlt; lia).
  split.
  - apply Qlt_shift_div_l; [exact HD|]. rewrite Qmult_0_l.
    change (inject_Z 0 < inject_Z (base * 2 - D + 1))%Q.
    rewrite <- Zlt_Qlt. lia.
  - apply Qlt_shift_div_r; [exact HD|]. rewrite Qmult_1_l.
    rewrite <- Zlt_Qlt. lia.
Qed.

Lemma palette_24bit (l : list Z) (i : nat) :
  Forall (fun c => 0 <= c <= 0xFFFFFF) l -> 0 <= nth i l 0 <= 0xFFFFFF.
Proof.
  intros H. destruct (Nat.lt_ge_cases i (List.length l)) as [Hlt|Hge].
  - rewrite Forall_forall in H. apply H. now apply nth_In.
  - rewrite nth_overflow by exact Hge. lia.
Qed.

(** X19: [nextColor] always returns: a ["#"] and the hexadecimal text of a
    24-bit colour, with the count raised by one.  The first five colours
    are [SEQUENCE_1], the next five [SEQUENCE_2], and from the sixteenth
    call on every channel lies between the channels of the two palette
    colours at that index. *)
Theorem nextColor_palette (count : nat) :
  exists color,
    nextColor count = Some ("#" ++ toString16 color, S count)
    /\ 0 <= color <= 0xFFFFFF
    /\ ((count < 5)%nat -> color = nth count SEQUENCE_1 0)
    /\ ((5 <= count < 10)%nat -> color = nth (count - 5) SEQUENCE_2 0)
    /\ ((15 <= count)%nat ->
        forall m, In m [0xFF0000; 0x00FF00; 0x0000FF] ->
          Z.min (Z.land (nth (count mod 5) SEQUENCE_2 0) m)
                (Z.land (nth (count mod 5) SEQUENCE_1 0) m)
          <= Z.land color m
          <= Z.max (Z.land (nth (count mod 5) SEQUENCE_2 0) m)
                   (Z.land (nth (count mod 5) SEQUENCE_1 0) m)).
Proof.
  pose proof (Nat.div_mod_eq count 5) as Hdm.
  pose proof (Nat.mod_upper_bound count 5 ltac:(lia)) as Hmod.
  assert (H1 : Forall (fun c => 0 <= c <= 0xFFFFFF) SEQUENCE_1)
    by (repeat constructor; lia).
  assert (H2 : Forall (fun c => 0 <= c <= 0xFFFFFF) SEQUENCE_2)
    by (repeat constructor; lia).
  unfold nextColor, nextColorValue.
  destruct (count / 5)%nat as [|[|q]] eqn:Eq.
  - eexists. split; [reflexivity|]. split; [now apply palette_24bit|].
    split; [intros _; f_equal; lia|]. split; intros; lia.
  - eexists. split; [reflexivity|]. split; [now apply palette_24bit|].
    split; [intros; lia|]. split; [intros _; f_equal; lia|intros; lia].
  - destruct (shadePercentage_range (Z.of_nat (S (S q)))) as (p & -> & Hp).
    eexists. split; [reflexivity|].
    split; [apply buildPercentageColor_24bit|].
    split; [intros; lia|]. split; [intros; lia|].
    intros Hc m Hm. destruct Hp as (Hp0 & Hp1); [lia|].
    apply buildPercentageColor_between; trivial; lra.
Qed.

Lemma nextColor_palette_witness :
  nextColor 17 = Some ("#5382b9", 18%nat)
  /\ exists color,
       nextColor 17 = Some ("#" ++ toString16 color, 18%nat)
       /\ Z.land 0x3465A4 0x0000FF <= Z.land color 0x0000FF.
Proof.
  destruct (nextColor_palette 17) as (color & Hn & _ & _ & _ & Hb).
  split; [vm_compute; reflexivity|].
  exists color. split; [exact Hn|].
  specialize (Hb ltac:(lia) 0x0000FF ltac:(right; right; left; reflexivity)).
  vm_compute (17 mod 5)%nat in Hb.
  change (nth 2 SEQUENCE_2 0) with 0x3465A4 in Hb.
  change (nth 2 SEQUENCE_1 0) with 0x729FCF in Hb.
  change (Z.land 0x729FCF 0x0000FF) with 207 in Hb.
  change (Z.land 0x3465A4 0x0000FF) with 164 in *.
  lia.
Defined.

Lemma shadePercentage_pair (q : Z) :
  Z.even (q - 3) = true -> shadePercentage (q + 1) = shadePercentage q.
Proof.
  intros He. apply Z.even_spec in He. destruct He as (k & Hk).
  unfold shadePercentage. rewrite !shade_base.
  replace ((q + 1 - 3 + 2) / 2) with (k + 1)
    by (apply Z.div_unique with (r := 1); lia).
  replace ((q - 3 + 2) / 2) with (k + 1)
    by (apply Z.div_unique with (r := 0); lia).
  reflexivity.
Qed.

(** X20: the interpolated colours come in pairs: when the shade index of
    a call from the sixteenth on is odd, the call five later returns the
    same colour text, so [nextColor] does not hand out distinct colours
    for ever. *)
Theorem nextColor_repeats (count : nat) :
  (15 <= count)%nat -> Z.even (Z.of_nat (count / 5) - 3) = true ->
  exists text,
    nextColor count = Some (text, S count)
    /\ nextColor (count + 5) = Some (text, S (count + 5)).
Proof.
  intros Hc He.
  assert (Hdiv : ((count + 5) / 5 = S (count / 5))%nat).
  { replace (count + 5)%nat with (count + 1 * 5)%nat by lia.
    rewrite Nat.div_add by lia. lia. }
  assert (Hmod : ((count + 5) mod 5 = count mod 5)%nat).
  { replace (count + 5)%nat with (count + 1 * 5)%nat by lia.
    apply Nat.Div0.mod_add. }
  assert (Hq : (3 <= count / 5)%nat)
    by (apply Nat.div_le_lower_bound; lia).
  unfold nextColor, nextColorValue. rewrite Hdiv, Hmod.
  destruct (count / 5)%nat as [|[|q]] eqn:Eq; try lia.
  rewrite (Nat2Z.inj_succ (S (S q))), <- Z.add_1_r.
  rewrite (shadePercentage_pair _ He).
  destruct (shadePercentage_range (Z.of_nat (S (S q)))) as (p & -> & _).
  eexists. split; reflexivity.
Qed.

Lemma nextColor_repeats_witness :
  nextColor 15 = Some ("#7eda25", 16%nat)
  /\ nextColor 20 = Some ("#7eda25", 21%nat).
Proof.
  destruct (nextColor_repeats 15) as (text & H15 & H20);
    [lia | reflexivity |].
  assert (Ht : text = "#7eda25")
    by (vm_compute in H15; now injection H15 as <-).
  subst text. split; [exact H15 | exact H20].
Defined.

(** ** Start of the page and code links *)

(** X21: when the list of datasets arrives on a page without job, the
    first dataset is selected and fetched, by one GET of /demo-data/{first},
    and its answer becomes the loaded schedule; an empty list changes
    nothing, so that a later solve is still refused without any request. *)
Theorem first_dataset_is_loaded
  (first : string) (others : list string) (sch : Schedule) (st : State) :
  scheduleId st = None ->
  demoDataId (demoDataAnswered (first :: others) (ScheduleAnswer (Some sch)) st)
  = Some first
  /\ loadedSchedule
       (demoDataAnswered (first :: others) (ScheduleAnswer (Some sch)) st)
     = Some sch
  /\ sent (demoDataAnswered (first :: others) (ScheduleAnswer (Some sch)) st)
     = (sent st
        ++ [{| method := GET; url := "/demo-data/" ++ first; body := NoBody |}])%list
  /\ onDemoData [] st = st
  /\ (loadedSchedule st = None -> sent (solve (onDemoData [] st)) = sent st).
Proof.
  intros E. unfold demoDataAnswered, onDemoData, refreshSchedule. simpl.
  rewrite E.
  rewrite (deliver_ajax _ OnSchedule _ (set_demoDataId (Some first) st)).
  unfold runCallback, onSchedule, renderSchedule, refreshSolvingButtons; simpl.
  repeat split;
    try (destruct (isSolving sch), (autoRefreshIntervalId st); reflexivity).
  intros En. unfold solve. now rewrite En.
Qed.

Lemma first_dataset_is_loaded_witness :
  loadedSchedule
    (demoDataAnswered ["SMALL"; "LARGE"] (ScheduleAnswer (Some sampleSchedule))
       startState)
  = Some sampleSchedule
  /\ sent (solve (onDemoData [] startState)) = [].
Proof.
  destruct (first_dataset_is_loaded "SMALL" ["LARGE"] sampleSchedule startState)
    as (_ & Hl & _ & _ & Hs); [reflexivity|].
  split; [exact Hl|]. apply Hs. reflexivity.
Defined.

Lemma split_no_separator (c : ascii) (s : string) :
  occurs c s = false -> JS.split c s = [s].
Proof.
  induction s as [|x r IH]; simpl; [reflexivity|].
  intros H. apply orb_false_elim in H. destruct H as (Hx & Hr).
  now rewrite Hx, (IH Hr).
Qed.

Lemma split_at_separator (c : ascii) (a b : string) :
  occurs c a = false ->
  JS.split c (a ++ String c b) = a :: JS.split c b.
Proof.
  induction a as [|x r IH]; simpl.
  - intros _. now rewrite Ascii.eqb_refl.
  - intros H. apply orb_false_elim in H. destruct H as (Hx & Hr).
    now rewrite Hx, (IH Hr).
Qed.

(** X22: a code link ["file:section"] (no colon inside either part, the
    section not empty) opens [file] at [section] and says so in an info
    toast; a target without colon opens the file from the top, with no
    section. *)
Theorem navigateToCode_target (file section : string) (st : State) :
  occurs ":" file = false ->
  (occurs ":" section = false -> section <> "" ->
   navigateToCode (file ++ ":" ++ section) st
   = (showNotification ("Viewing " ++ file ++ "  " ++ section) "info" st,
      (file, Some section)))
  /\ navigateToCode file st
     = (showNotification ("Viewing " ++ file) "info" st, (file, None)).
Proof.
  intros Hf. split.
  - intros Hs Hne. unfold navigateToCode.
    change (file ++ ":" ++ section)%string with (file ++ String ":" section)%string.
    rewrite (split_at_separator ":" file section Hf),
      (split_no_separator ":" section Hs).
    cbn [nth nth_error JS.truthy].
    apply truthyString_true in Hne. now rewrite Hne.
  - unfold navigateToCode. rewrite (split_no_separator ":" file Hf).
    cbn [nth nth_error JS.truthy]. now rewrite string_app_nil_r.
Qed.

Lemma navigateToCode_target_witness :
  snd (navigateToCode "app.js:updateKPIs" startState)
  = ("app.js", Some "updateKPIs")
  /\ snd (navigateToCode "domain.py" startState) = ("domain.py", None).
Proof.
  destruct (navigateToCode_target "app.js" "updateKPIs" startState)
    as (H1 & _); [reflexivity|].
  destruct (navigateToCode_target "domain.py" "" startState)
    as (_ & H2); [reflexivity|].
  split.
  - change "app.js:updateKPIs" with ("app.js" ++ ":" ++ "updateKPIs")%string.
    rewrite H1; [reflexivity | reflexivity | discriminate].
  - rewrite H2. reflexivity.
Defined.
